(** * Pooja AI: the voice-session state machine of [frontend/src/App.jsx]

    A shallow embedding of the React component [App]: its state variables
    and refs become a record, every event handler becomes a function on
    that record, and every asynchronous function is cut at its [await]
    (or timer, or media callback) into the part that runs before the
    suspension and the part that runs when the suspension settles.  The
    in-flight suspensions are kept next to the state, and the environment
    (user clicks, the recognition engine, the network, audio playback)
    drives the component through a labelled step function. *)

From Stdlib Require Import List ZArith NArith String Ascii Bool Lia QArith.
From Stdlib Require DecimalString.
Import ListNotations.

Local Open Scope bool_scope.

(* ================================================================== *)
(** ** JavaScript strings *)
(* ================================================================== *)

(** A JavaScript string is a sequence of UTF-16 code units. *)
Module Js.

Definition jsstring := list N.

(** An ASCII literal of the source. *)
Definition lit (s : string) : jsstring :=
  map N_of_ascii (list_ascii_of_string s).

Definition eqb (a b : jsstring) : bool :=
  if list_eq_dec N.eq_dec a b then true else false.

(** ECMAScript [WhiteSpace] and [LineTerminator] code points, the set that
    [String.prototype.trim] strips. *)
Definition isWhiteSpace (c : N) : bool :=
  ((9 <=? c) && (c <=? 13) ||
   (c =? 32) || (c =? 160) || (c =? 5760) ||
   ((8192 <=? c) && (c <=? 8202)) ||
   (c =? 8232) || (c =? 8233) || (c =? 8239) || (c =? 8287) ||
   (c =? 12288) || (c =? 65279))%N.

Fixpoint trimStart (s : jsstring) : jsstring :=
  match s with
  | c :: r => if isWhiteSpace c then trimStart r else s
  | [] => []
  end.

Definition trimEnd (s : jsstring) : jsstring := rev (trimStart (rev s)).

(** [s.trim()] *)
Definition trim (s : jsstring) : jsstring := trimEnd (trimStart s).

(** [Array.prototype.join] on an array of strings: the loop of the
    language definition, which puts the separator before every element but
    the first. *)
Fixpoint join_from (sep : jsstring) (k : nat) (acc : jsstring)
         (l : list jsstring) : jsstring :=
  match l with
  | [] => acc
  | x :: r =>
      let acc' := if Nat.ltb 0 k then acc ++ sep else acc in
      join_from sep (S k) (acc' ++ x) r
  end.

Definition join (sep : jsstring) (l : list jsstring) : jsstring :=
  join_from sep 0 [] l.

(** [s.startsWith(p)] *)
Fixpoint startsWith (s p : jsstring) : bool :=
  match p, s with
  | [], _ => true
  | _ :: _, [] => false
  | a :: p', b :: s' => (a =? b)%N && startsWith s' p'
  end.

(** [s.includes(p)] *)
Fixpoint includes (s p : jsstring) : bool :=
  startsWith s p ||
  match s with
  | [] => false
  | _ :: s' => includes s' p
  end.

(** [s.split(sep)[0]] for a one-unit separator: the units before its first
    occurrence. *)
Fixpoint split_head (sep : N) (s : jsstring) : jsstring :=
  match s with
  | [] => []
  | c :: r => if (c =? sep)%N then [] else c :: split_head sep r
  end.

(** [s.toLowerCase()].  The code units A to Z are mapped; the others are
    kept, which is what the two ASCII tokens searched for in a voice name
    can observe. *)
Definition lowerUnit (c : N) : N :=
  if ((65 <=? c) && (c <=? 90))%N then (c + 32)%N else c.

Definition toLowerCase (s : jsstring) : jsstring := map lowerUnit s.

(** Decimal rendering of an integral number, as [ToString] gives it for
    an integer below 10^21 in magnitude.  It renders the difference of two
    clock readings, which are integers far below that. *)
Definition ofZ (z : Z) : jsstring :=
  lit (DecimalString.NilZero.string_of_int (Z.to_int z)).

(** [a - b] on two integral numbers below 2^53 in magnitude, as are the
    readings of [Date.now()].  The difference is below 2^54: it is exact
    below 2^53, and from there on it is rounded to the nearest even
    integer, a tie going to the multiple of four. *)
Definition minus (a b : Z) : Z :=
  let d := (a - b)%Z in
  if (Z.abs d <? 2 ^ 53)%Z then d
  else if Z.even d then d
  else if Z.even (d / 2) then (2 * (d / 2))%Z
  else (2 * (d / 2) + 2)%Z.

(** The value of a digit in a base up to sixteen. *)
Definition digitOf (base : Z) (c : N) : option Z :=
  let z := Z.of_N c in
  let v := if ((48 <=? z) && (z <=? 57))%Z then (z - 48)%Z
           else if ((97 <=? z) && (z <=? 102))%Z then (z - 87)%Z
           else if ((65 <=? z) && (z <=? 70))%Z then (z - 55)%Z
           else 16%Z in
  if (v <? base)%Z then Some v else None.

Fixpoint digitsFrom (base acc : Z) (s : jsstring) : option Z :=
  match s with
  | [] => Some acc
  | c :: r =>
      match digitOf base c with
      | Some d => digitsFrom base (acc * base + d) r
      | None => None
      end
  end.

(** The value of a non-empty run of digits. *)
Definition digits (base : Z) (s : jsstring) : option Z :=
  match s with
  | [] => None
  | _ :: _ => digitsFrom base 0 s
  end.

(** The units before the first one that satisfies [p], and those after
    it when there is one. *)
Fixpoint break (p : N -> bool) (s : jsstring) : jsstring * option jsstring :=
  match s with
  | [] => ([], None)
  | c :: r =>
      if p c then ([], Some r)
      else let (a, b) := break p r in (c :: a, b)
  end.

(** [SignedInteger]: digits after an optional sign. *)
Definition signedInteger (s : jsstring) : option Z :=
  match s with
  | 43%N :: r => digits 10 r
  | 45%N :: r => option_map Z.opp (digits 10 r)
  | _ => digits 10 s
  end.

(** Whether an unsigned decimal literal ([Infinity], or digits with an
    optional fraction and exponent) denotes a number above zero.  The
    literal [d * 10^e] is read as the nearest double, which is zero up to
    2^-1075, half of the least positive double. *)
Definition unsignedDecimalPositive (s : jsstring) : bool :=
  if eqb s (lit "Infinity") then true
  else
    let (mantissa, exponent) :=
      break (fun c => (c =? 101)%N || (c =? 69)%N) s in
    let (whole, fraction) := break (fun c => (c =? 46)%N) mantissa in
    let e := match exponent with
             | None => Some 0%Z
             | Some x => signedInteger x
             end in
    let d := match whole, fraction with
             | _ :: _, None => digits 10 whole
             | _ :: _, Some [] => digits 10 whole
             | _, Some ((_ :: _) as f) => digits 10 (whole ++ f)
             | [], _ => None
             end in
    match d, e with
    | Some d, Some e =>
        let e := (e - Z.of_nat (List.length
                                  (match fraction with
                                   | Some f => f
                                   | None => []
                                   end)))%Z in
        (0 <? d)%Z &&
        ((0 <=? e)%Z || (10 ^ (- e) <? d * 2 ^ 1075)%Z)
    | _, _ => false
    end.

(** [StringToNumber(s) > 0]: white space is stripped, the empty string is
    zero, a literal in base two, eight or sixteen takes no sign, and what
    is no numeric literal is [NaN], which is above nothing. *)
Definition positive (s : jsstring) : bool :=
  match trim s with
  | 48%N :: c :: r =>
      if (c =? 120)%N || (c =? 88)%N then
        match digits 16 r with Some v => (0 <? v)%Z | None => false end
      else if (c =? 111)%N || (c =? 79)%N then
        match digits 8 r with Some v => (0 <? v)%Z | None => false end
      else if (c =? 98)%N || (c =? 66)%N then
        match digits 2 r with Some v => (0 <? v)%Z | None => false end
      else unsignedDecimalPositive (48%N :: c :: r)
  | 43%N :: r => unsignedDecimalPositive r
  | 45%N :: _ => false
  | t => unsignedDecimalPositive t
  end.

End Js.

Abbreviation jsstring := Js.jsstring.
Abbreviation lit := Js.lit.

(* ================================================================== *)
(** ** JavaScript values of network payloads *)
(* ================================================================== *)

(** What [res.json()] can deliver, and [undefined] for an absent field.
    A number is given by the text that [ToString] yields for it, the
    shortest decimal that reads back as the same number ("5", "0.5",
    "1e+21", "-3"): converting a payload number to a boolean or to a
    string, and comparing it with zero, is all the component does with
    one, and the text decides the three. *)
#[warnings="-register-all"]
Inductive JsVal : Type :=
| JUndefined
| JNull
| JBool (b : bool)
| JNum (text : jsstring)
| JStr (s : jsstring)
| JArr (elems : list JsVal)
| JObj (fields : list (jsstring * JsVal)).

(** Own property table of a parsed object. *)
Fixpoint lookup (k : jsstring) (fields : list (jsstring * JsVal)) : JsVal :=
  match fields with
  | [] => JUndefined
  | (k', v) :: r => if Js.eqb k k' then v else lookup k r
  end.

(** [v.k] for a field name that no prototype defines ([success],
    [options], [fallback], [audio], [tone], [response]).  [None] is the
    [TypeError] of reading a property of [null] or [undefined]. *)
Definition get (v : JsVal) (k : jsstring) : option JsVal :=
  match v with
  | JUndefined | JNull => None
  | JObj fields => Some (lookup k fields)
  | _ => Some JUndefined
  end.

(** [ToBoolean]: of the numbers, zero (either sign prints as 0) and NaN
    are false. *)
Definition truthy (v : JsVal) : bool :=
  match v with
  | JUndefined | JNull => false
  | JBool b => b
  | JNum t => negb (Js.eqb t (lit "0") || Js.eqb t (lit "NaN"))
  | JStr s => match s with [] => false | _ => true end
  | JArr _ | JObj _ => true
  end.

(** The object has an own property [k]. *)
Definition hasKey (k : jsstring) (fields : list (jsstring * JsVal)) : bool :=
  existsb (fun kv => Js.eqb k (fst kv)) fields.

(** [ToString], as a template literal or [+] with a string applies it.
    [None] is the [TypeError] of an object that cannot be converted: a
    parsed object holds no function, so an own [toString] property hides
    the inherited method and no method is left to give a primitive.  A
    list is joined with commas, [null] and [undefined] elements giving the
    empty string. *)
Fixpoint toString (v : JsVal) : option jsstring :=
  match v with
  | JUndefined => Some (lit "undefined")
  | JNull => Some (lit "null")
  | JBool true => Some (lit "true")
  | JBool false => Some (lit "false")
  | JNum t => Some t
  | JStr s => Some s
  | JArr l =>
      (fix elems (l : list JsVal) : option jsstring :=
         match l with
         | [] => Some []
         | [x] =>
             match x with
             | JUndefined | JNull => Some []
             | _ => toString x
             end
         | x :: r =>
             match match x with
                   | JUndefined | JNull => Some []
                   | _ => toString x
                   end, elems r with
             | Some a, Some b => Some (a ++ lit "," ++ b)
             | _, _ => None
             end
         end) l
  | JObj fields =>
      if hasKey (lit "toString") fields then None
      else Some (lit "[object Object]")
  end.

(** [v > 0].  An object or a list is first converted to a string, which
    can raise as in [toString]; a string is then read as a number. *)
Definition greaterThanZero (v : JsVal) : option bool :=
  match v with
  | JUndefined | JNull => Some false
  | JBool b => Some b
  | JNum t =>
      Some (negb (Js.eqb t (lit "0") || Js.eqb t (lit "NaN")
                  || Js.startsWith t (lit "-")))
  | JStr s => Some (Js.positive s)
  | JArr _ | JObj _ => option_map Js.positive (toString v)
  end.

(** What React accepts as the child of an element: text and numbers are
    shown, booleans, [null] and [undefined] show nothing, a list shows
    its elements, and a plain object is refused with an error. *)
Fixpoint validChild (v : JsVal) : bool :=
  match v with
  | JObj _ => false
  | JArr l =>
      (fix all (l : list JsVal) : bool :=
         match l with
         | [] => true
         | x :: r => validChild x && all r
         end) l
  | _ => true
  end.

(* ================================================================== *)
(** ** Data model *)
(* ================================================================== *)

Record Status := { message : jsstring; color : jsstring }.

Record ConversationEntry := { role : jsstring; text : jsstring }.

(** A well-formed reply option, [{tone, response}], and the payload value
    that carries it. *)
Record ResponseOption := { tone : jsstring; response : jsstring }.

Definition optionVal (o : ResponseOption) : JsVal :=
  JObj [(lit "tone", JStr (tone o)); (lit "response", JStr (response o))].

(** The recognition object built by [initializeRecognition].  Its
    [onstart] closure keeps the [selectedLanguage] of the render that
    built it. *)
Record Recognition := {
  continuous : bool;
  interimResults : bool;
  lang : jsstring;
  onstart_language : jsstring
}.

(** One entry of [e.results]: its first alternative's text and the
    [isFinal] flag (the confidence is only logged). *)
Record SpeechResult := { res_transcript : jsstring; isFinal : bool }.

Record ResultEvent := { resultIndex : nat; results : list SpeechResult }.

(** The two capabilities a promise executor can install as a handler. *)
Inductive Callback := PromiseResolve | PromiseReject.

Record Voice := { voice_lang : jsstring; voice_name : jsstring }.

Record AudioElement := {
  audio_src : jsstring;
  onended : option Callback;
  audio_onerror : option Callback
}.

Record Utterance := {
  utt_text : jsstring;
  rate : Q;
  pitch : Q;
  utt_lang : jsstring;
  voice : option Voice;
  onend : option Callback;
  utt_onerror : option Callback
}.

Inductive Media :=
| NetworkAudio (a : AudioElement)
| LocalSpeech (u : Utterance).

Record GenerateRequest := {
  patronText : jsstring;
  req_history : list ConversationEntry;
  req_language : jsstring
}.

Record TtsRequest := { tts_text : jsstring; tts_language : jsstring }.

(** The component's state variables and refs. *)
Record AppState := {
  isRecording : bool;
  isSpeaking : bool;
  isProcessing : bool;
  transcript : jsstring;
  responseOptions : JsVal;
  conversationHistory : list ConversationEntry;
  selectedLanguage : jsstring;
  status : Status;
  recognitionRef : option Recognition;
  finalTranscriptRef : list jsstring
}.

(** [useState] and [useRef] initial values. *)
Definition initialState : AppState :=
  {| isRecording := false; isSpeaking := false; isProcessing := false;
     transcript := []; responseOptions := JArr [];
     conversationHistory := [];
     selectedLanguage := lit "en-US";
     status := {| message := lit "Ready"; color := lit "gray" |};
     recognitionRef := None; finalTranscriptRef := [] |}.

(** A suspended asynchronous computation, with what its continuation
    closed over. *)
Inductive Task :=
| Timer (ms : Z) (history : list ConversationEntry) (language : jsstring)
| GenerateFetch (req : GenerateRequest) (start : Z)
| TtsFetch (req : TtsRequest) (option : JsVal)
| Playback (m : Media) (option : JsVal).

(** What a handler asks of the browser. *)
Inductive Call :=
| RecognitionStart (r : Recognition)
| RecognitionStop (r : Recognition)
| Suspend (t : Task).

(** How a [fetch] followed by [res.json()] settles. *)
Inductive FetchOutcome :=
| FetchThrows
| FetchData (data : JsVal).

Inductive MediaEvent := Ended | Errored.

(* ------------------------------------------------------------------ *)
(** *** State setters *)

Definition setIsRecording (b : bool) (s : AppState) : AppState :=
  {| isRecording := b; isSpeaking := isSpeaking s;
     isProcessing := isProcessing s; transcript := transcript s;
     responseOptions := responseOptions s;
     conversationHistory := conversationHistory s;
     selectedLanguage := selectedLanguage s; status := status s;
     recognitionRef := recognitionRef s;
     finalTranscriptRef := finalTranscriptRef s |}.

Definition setIsSpeaking (b : bool) (s : AppState) : AppState :=
  {| isRecording := isRecording s; isSpeaking := b;
     isProcessing := isProcessing s; transcript := transcript s;
     responseOptions := responseOptions s;
     conversationHistory := conversationHistory s;
     selectedLanguage := selectedLanguage s; status := status s;
     recognitionRef := recognitionRef s;
     finalTranscriptRef := finalTranscriptRef s |}.

Definition setIsProcessing (b : bool) (s : AppState) : AppState :=
  {| isRecording := isRecording s; isSpeaking := isSpeaking s;
     isProcessing := b; transcript := transcript s;
     responseOptions := responseOptions s;
     conversationHistory := conversationHistory s;
     selectedLanguage := selectedLanguage s; status := status s;
     recognitionRef := recognitionRef s;
     finalTranscriptRef := finalTranscriptRef s |}.

Definition setTranscript (t : jsstring) (s : AppState) : AppState :=
  {| isRecording := isRecording s; isSpeaking := isSpeaking s;
     isProcessing := isProcessing s; transcript := t;
     responseOptions := responseOptions s;
     conversationHistory := conversationHistory s;
     selectedLanguage := selectedLanguage s; status := status s;
     recognitionRef := recognitionRef s;
     finalTranscriptRef := finalTranscriptRef s |}.

Definition setResponseOptions (v : JsVal) (s : AppState) : AppState :=
  {| isRecording := isRecording s; isSpeaking := isSpeaking s;
     isProcessing := isProcessing s; transcript := transcript s;
     responseOptions := v;
     conversationHistory := conversationHistory s;
     selectedLanguage := selectedLanguage s; status := status s;
     recognitionRef := recognitionRef s;
     finalTranscriptRef := finalTranscriptRef s |}.

Definition setConversationHistory
    (f : list ConversationEntry -> list ConversationEntry)
    (s : AppState) : AppState :=
  {| isRecording := isRecording s; isSpeaking := isSpeaking s;
     isProcessing := isProcessing s; transcript := transcript s;
     responseOptions := responseOptions s;
     conversationHistory := f (conversationHistory s);
     selectedLanguage := selectedLanguage s; status := status s;
     recognitionRef := recognitionRef s;
     finalTranscriptRef := finalTranscriptRef s |}.

Definition setSelectedLanguage (l : jsstring) (s : AppState) : AppState :=
  {| isRecording := isRecording s; isSpeaking := isSpeaking s;
     isProcessing := isProcessing s; transcript := transcript s;
     responseOptions := responseOptions s;
     conversationHistory := conversationHistory s;
     selectedLanguage := l; status := status s;
     recognitionRef := recognitionRef s;
     finalTranscriptRef := finalTranscriptRef s |}.

Definition setStatus (m c : jsstring) (s : AppState) : AppState :=
  {| isRecording := isRecording s; isSpeaking := isSpeaking s;
     isProcessing := isProcessing s; transcript := transcript s;
     responseOptions := responseOptions s;
     conversationHistory := conversationHistory s;
     selectedLanguage := selectedLanguage s;
     status := {| message := m; color := c |};
     recognitionRef := recognitionRef s;
     finalTranscriptRef := finalTranscriptRef s |}.

(** Assignment to [recognitionRef.current]. *)
Definition setRecognitionRef (r : option Recognition) (s : AppState)
  : AppState :=
  {| isRecording := isRecording s; isSpeaking := isSpeaking s;
     isProcessing := isProcessing s; transcript := transcript s;
     responseOptions := responseOptions s;
     conversationHistory := conversationHistory s;
     selectedLanguage := selectedLanguage s; status := status s;
     recognitionRef := r;
     finalTranscriptRef := finalTranscriptRef s |}.

(** Assignment to (or [push] on) [finalTranscriptRef.current]. *)
Definition setFinalTranscriptRef (l : list jsstring) (s : AppState)
  : AppState :=
  {| isRecording := isRecording s; isSpeaking := isSpeaking s;
     isProcessing := isProcessing s; transcript := transcript s;
     responseOptions := responseOptions s;
     conversationHistory := conversationHistory s;
     selectedLanguage := selectedLanguage s; status := status s;
     recognitionRef := recognitionRef s;
     finalTranscriptRef := l |}.

(* ================================================================== *)
(** ** Event handlers *)
(* ================================================================== *)

(** Every handler runs on the state of the latest render and returns the
    state after its queued updates together with its calls into the
    browser. *)
Definition Result : Type := AppState * list Call.

(** [initializeRecognition].  [supported] tells whether the browser has a
    [SpeechRecognition] constructor. *)
Definition initializeRecognition (supported : bool) (s : AppState)
  : AppState * bool :=
  if negb supported then
    (setStatus ([9888; 65039]%N ++ lit " Use Chrome/Edge/Safari") (lit "red") s,
     false)
  else
    let recognitionLang :=
      if Js.eqb (selectedLanguage s) (lit "raj-IN") then lit "hi-IN"
      else selectedLanguage s in
    let recognition :=
      {| continuous := true; interimResults := true;
         lang := recognitionLang;
         onstart_language := selectedLanguage s |} in
    (setRecognitionRef (Some recognition) s, true).

(** The object literal looked up in [recognition.onstart], as the
    template literal then prints the result: the name under the key, and
    [undefined] for a code that is none of the four keys.  The language
    selector offers these four codes and no other. *)
Definition langName (code : jsstring) : jsstring :=
  if Js.eqb code (lit "en-US") then lit "English"
  else if Js.eqb code (lit "hi-IN") then lit "Hindi"
  else if Js.eqb code (lit "ta-IN") then lit "Tamil"
  else if Js.eqb code (lit "raj-IN") then lit "Rajasthani"
  else lit "undefined".

(** [recognition.onstart] of the instance [r]. *)
Definition onstart (r : Recognition) (s : AppState) : AppState :=
  let s := setIsRecording true s in
  let s := setTranscript [] s in
  let s := setFinalTranscriptRef [] s in
  setStatus
    ([55356; 57252]%N ++ lit " Listening in "
       ++ langName (onstart_language r) ++ lit "...")
    (lit "green") s.

(** The [for] loop of [recognition.onresult] over the results from
    [e.resultIndex] on: final texts are pushed on the ref, the others are
    concatenated. *)
Fixpoint onresult_loop (rs : list SpeechResult) (finals : list jsstring)
         (interimTranscript : jsstring) : list jsstring * jsstring :=
  match rs with
  | [] => (finals, interimTranscript)
  | r :: rest =>
      if isFinal r
      then onresult_loop rest (finals ++ [res_transcript r]) interimTranscript
      else onresult_loop rest finals (interimTranscript ++ res_transcript r)
  end.

(** [recognition.onresult] *)
Definition onresult (e : ResultEvent) (s : AppState) : AppState :=
  let '(finals, interimTranscript) :=
    onresult_loop (skipn (resultIndex e) (results e))
                  (finalTranscriptRef s) [] in
  let s := setFinalTranscriptRef finals s in
  let currentTranscript := Js.trim (Js.join (lit " ") finals) in
  setTranscript
    (Js.trim (currentTranscript ++ lit " " ++ interimTranscript)) s.

(** [recognition.onerror] *)
Definition onerror (error : jsstring) (s : AppState) : AppState :=
  if negb (Js.eqb error (lit "aborted"))
     && negb (Js.eqb error (lit "no-speech"))
  then setStatus (lit "Error: " ++ error) (lit "red") s
  else s.

(** [startRecording].  [startThrows] tells whether [recognition.start()]
    raises. *)
Definition startRecording (supported startThrows : bool) (s : AppState)
  : Result :=
  let '(s1, go) :=
    match recognitionRef s with
    | Some _ => (s, true)
    | None => initializeRecognition supported s
    end in
  if negb go then (s1, [])
  else
    (* Reinitialize with current language *)
    let s2 := fst (initializeRecognition supported s1) in
    let s3 := setResponseOptions (JArr []) (setTranscript [] s2) in
    match recognitionRef s3 with
    | Some r =>
        if startThrows
        then (setStatus (lit "Click again") (lit "orange") s3, [])
        else (s3, [RecognitionStart r])
    | None => (setStatus (lit "Click again") (lit "orange") s3, [])
    end.

(** [stopRecording]: the timer's callback closes over the
    [generateResponses] of this render, hence over its
    [conversationHistory] and [selectedLanguage]. *)
Definition stopRecording (s : AppState) : Result :=
  match recognitionRef s with
  | None => (s, [])
  | Some r =>
      if negb (isRecording s) then (s, [])
      else
        (setIsRecording false s,
         [RecognitionStop r;
          Suspend (Timer 500 (conversationHistory s) (selectedLanguage s))])
  end.

(** [handleMicClick] *)
Definition handleMicClick (supported startThrows : bool) (s : AppState)
  : Result :=
  if isSpeaking s then (setStatus (lit "Wait...") (lit "orange") s, [])
  else if isRecording s then stopRecording s
  else startRecording supported startThrows s.

(** [addToConversation] *)
Definition addToConversation (r t : jsstring) (s : AppState) : AppState :=
  setConversationHistory (fun prev => prev ++ [{| role := r; text := t |}]) s.

(** [generateResponses] up to its [await fetch]; [start] is [Date.now()]. *)
Definition generateResponses (history : list ConversationEntry)
    (language : jsstring) (patronText : jsstring) (start : Z)
    (s : AppState) : Result :=
  let s := setIsProcessing true s in
  let s := setResponseOptions (JArr []) s in
  (s, [Suspend (GenerateFetch
                  {| patronText := patronText; req_history := history;
                     req_language := language |} start)]).

(** The [catch] block of [generateResponses]. *)
Definition generateResponses_catch (s : AppState) : AppState :=
  setStatus (lit "Connection error") (lit "red") s.

(** [generateResponses] from the settlement of the request on; [now] is
    the [Date.now()] read after [res.json()].  Reading a field of a
    [null] payload raises and lands in the [catch] block. *)
Definition generateResponses_resume (patronText : jsstring) (start : Z)
    (out : FetchOutcome) (now : Z) (s : AppState) : AppState :=
  let time := Js.minus now start in
  let s :=
    match out with
    | FetchThrows => generateResponses_catch s
    | FetchData data =>
        match get data (lit "success") with
        | None => generateResponses_catch s
        | Some success =>
            if truthy success then
              match get data (lit "options"), get data (lit "fallback") with
              | Some options, Some fallback =>
                  let s := setResponseOptions options s in
                  let s :=
                    setStatus
                      (if truthy fallback
                       then [10003]%N ++ lit " Fallback ("
                              ++ Js.ofZ time ++ lit "ms)"
                       else [10003]%N ++ lit " AI ("
                              ++ Js.ofZ time ++ lit "ms)")
                      (if truthy fallback then lit "orange" else lit "green")
                      s in
                  addToConversation (lit "Patron") patronText s
              | _, _ => generateResponses_catch s
              end
            else
              setStatus (lit "Error generating responses") (lit "red") s
        end
    end in
  (* finally *)
  setIsProcessing false s.

(** The callback [stopRecording] hands to [setTimeout]. *)
Definition stopRecording_timeout (history : list ConversationEntry)
    (language : jsstring) (now : Z) (s : AppState) : Result :=
  let finalText := Js.trim (Js.join (lit " ") (finalTranscriptRef s)) in
  if truthy (JStr finalText)
  then generateResponses history language finalText now s
  else (setStatus (lit "No speech detected") (lit "orange") s, []).

(** The locale [fallbackSpeak] gives the utterance. *)
Definition fallbackLang (selected : jsstring) : jsstring :=
  if Js.eqb selected (lit "hi-IN") || Js.eqb selected (lit "raj-IN")
  then lit "hi-IN"
  else if Js.eqb selected (lit "ta-IN") then lit "ta-IN"
  else lit "en-IN".

(** The predicate of [voices.find] in [fallbackSpeak]. *)
Definition isFemaleVoice (uttLang : jsstring) (v : Voice) : bool :=
  Js.startsWith (voice_lang v) (Js.split_head 45 uttLang)
  && (Js.includes (Js.toLowerCase (voice_name v)) (lit "female")
      || Js.includes (Js.toLowerCase (voice_name v)) (lit "woman")).

(** [fallbackSpeak]: the utterance handed to [synthRef.current.speak];
    [voices] is what [getVoices()] returns. *)
Definition fallbackSpeak (selected : jsstring) (voices : list Voice)
    (t : jsstring) : Utterance :=
  let l := fallbackLang selected in
  {| utt_text := t;
     rate := 1.0;
     pitch := 1.8;
     utt_lang := l;
     voice := find (isFemaleVoice l) voices;
     onend := Some PromiseResolve;
     utt_onerror := Some PromiseResolve |}.

(** [speakText] from the settlement of its request on: the medium whose
    end or error settles the promise it returns.  [None] when the promise
    is rejected at once: the data URL is built inside the promise's
    executor, outside the reach of the [catch] block, so that an audio
    field that cannot be converted to a string rejects the promise. *)
Definition speakText_resume (req : TtsRequest) (out : FetchOutcome)
    (voices : list Voice) : option Media :=
  let fallback :=
    LocalSpeech (fallbackSpeak (tts_language req) voices (tts_text req)) in
  match out with
  | FetchThrows => Some fallback
  | FetchData data =>
      match get data (lit "success"), get data (lit "audio") with
      | Some success, Some audio =>
          if truthy success && truthy audio then
            match toString audio with
            | Some a =>
                Some (NetworkAudio
                        {| audio_src := lit "data:audio/mp3;base64," ++ a;
                           onended := Some PromiseResolve;
                           audio_onerror := Some PromiseResolve |})
            | None => None
            end
          else Some fallback
      | _, _ => Some fallback
      end
  end.

(** [speakText] up to its [await fetch].  Its first statement logs
    [text.substring(0, 50)], which raises unless [text] is a string:
    [None] then, and nothing is requested.  The continuation keeps the
    [option] that [selectResponse] goes on with. *)
Definition speakText (language : jsstring) (t : JsVal) (option : JsVal)
  : Datatypes.option Call :=
  match t with
  | JStr t =>
      Some (Suspend (TtsFetch {| tts_text := t; tts_language := language |}
                              option))
  | _ => None
  end.

(** [selectResponse] up to the [await].  When reading [option.response]
    raises ([option] is [null]) or [speakText] raises, the two updates
    already queued stay, nothing is suspended and the rest of
    [selectResponse] never runs. *)
Definition selectResponse (option : JsVal) (s : AppState) : Result :=
  let s1 := setResponseOptions (JArr []) (setIsSpeaking true s) in
  match get option (lit "response") with
  | Some t =>
      match speakText (selectedLanguage s) t option with
      | Some call => (s1, [call])
      | None => (s1, [])
      end
  | None => (s1, [])
  end.

(** [selectResponse] after [await speakText(...)] has resolved.  It is
    suspended only for an [option] whose [response] is a string, which is
    what the first branch reads again.  When the tone cannot be converted
    for the template literal, the literal throws and none of the four
    updates is made. *)
Definition selectResponse_resume (option : JsVal) (s : AppState) : AppState :=
  match get option (lit "tone"), get option (lit "response") with
  | Some t, Some (JStr r) =>
      match toString t with
      | Some tone =>
          let s := addToConversation (lit "Pooja (" ++ tone ++ lit ")") r s in
          let s := setIsSpeaking false s in
          let s := setStatus ([10003]%N ++ lit " Ready") (lit "blue") s in
          setTranscript [] s
      | None => s
      end
  | _, _ => s
  end.

(** [clearHistory] *)
Definition clearHistory (s : AppState) : AppState :=
  setStatus ([10003]%N ++ lit " Cleared") (lit "green")
            (setConversationHistory (fun _ => []) s).

(** The handler a medium has for an event. *)
Definition handlerOf (m : Media) (ev : MediaEvent) : option Callback :=
  match m, ev with
  | NetworkAudio a, Ended => onended a
  | NetworkAudio a, Errored => audio_onerror a
  | LocalSpeech u, Ended => onend u
  | LocalSpeech u, Errored => utt_onerror u
  end.

(* ================================================================== *)
(** ** The component as a transition system *)
(* ================================================================== *)

(** The state of the latest render (the state it was given, when it
    threw), the suspensions in flight, and the log of every call made into
    the browser. *)
Record World := {
  app : AppState;
  pending : list Task;
  calls : list Call
}.

Definition initialWorld : World :=
  {| app := initialState; pending := []; calls := [] |}.

(** What the environment can do to the component.  The events that settle
    a suspension name it by its position in [pending].  The engine's end
    event has no constructor: [recognition.onend] is empty. *)
Inductive Event :=
| MicClick (supported startThrows : bool)
| RecognitionOnStart (r : Recognition)
| RecognitionOnResult (e : ResultEvent)
| RecognitionOnError (error : jsstring)
| TimerFired (i : nat) (now : Z)
| GenerateSettled (i : nat) (out : FetchOutcome) (now : Z)
| OptionClick (i : nat)
| TtsSettled (i : nat) (out : FetchOutcome) (voices : list Voice)
| MediaFired (i : nat) (ev : MediaEvent)
| ClearClick
| LanguageChange (code : jsstring).

Definition suspended (cs : list Call) : list Task :=
  flat_map (fun c => match c with Suspend t => [t] | _ => [] end) cs.

Definition remove_nth (i : nat) (l : list Task) : list Task :=
  firstn i l ++ skipn (S i) l.

(** Commit a handler's result: its state, the suspensions left plus the
    ones it created, and its calls. *)
Definition commit (w : World) (rest : list Task) (r : Result) : World :=
  {| app := fst r;
     pending := rest ++ suspended (snd r);
     calls := calls w ++ snd r |}.

(** The button of one option, lines 333 to 345 of the render: it reads
    [option.tone] and [option.response], which raises on [null] and
    [undefined], and shows the two as children. *)
Definition optionShown (option : JsVal) : bool :=
  match get option (lit "tone"), get option (lit "response") with
  | Some tone, Some response => validChild tone && validChild response
  | _, _ => false
  end.

(** The options block of the render, lines 329 to 351:
    [responseOptions.length > 0 && responseOptions.map(...)], on whatever
    the state holds.  The result is the list of options that get a
    button, and [None] when the render throws, which takes the page away:
    reading [length] of [null] or [undefined], calling [map] on a
    non-empty string or on an object whose [length] is above zero, and
    showing an option that is [null] or whose [tone] or [response] is an
    object.  Numbers, booleans, the empty string and objects with no
    [length] above zero show no button.  No other part of the render can
    throw: the other state variables hold booleans, strings and entries
    made of strings. *)
Definition render (s : AppState) : option (list JsVal) :=
  match responseOptions s with
  | JUndefined | JNull => None
  | JBool _ | JNum _ => Some []
  | JStr t => match t with [] => Some [] | _ :: _ => None end
  | JArr l => if forallb optionShown l then Some l else None
  | JObj fields =>
      match greaterThanZero (lookup (lit "length") fields) with
      | Some false => Some []
      | _ => None
      end
  end.

(** The option buttons on the page: those of the render, and none when
    the render has thrown. *)
Definition renderedOptions (s : AppState) : list JsVal :=
  match render s with
  | Some options => options
  | None => []
  end.

(** One event.  [None] when the event cannot occur: no such suspension,
    no such button.  (The mic button is also [disabled] while speaking;
    [handleMicClick] has its own guard, which is what runs here.)  The
    option buttons are those of the render, so there is none once it has
    thrown.  The handlers of the other controls, and the callbacks of what
    is suspended, are run on any state, also on one that has lost its
    page: the worlds of the model include those of the component. *)
Definition step (w : World) (e : Event) : option World :=
  let s := app w in
  match e with
  | MicClick supported startThrows =>
      Some (commit w (pending w) (handleMicClick supported startThrows s))
  | RecognitionOnStart r => Some (commit w (pending w) (onstart r s, []))
  | RecognitionOnResult e => Some (commit w (pending w) (onresult e s, []))
  | RecognitionOnError error =>
      Some (commit w (pending w) (onerror error s, []))
  | TimerFired i now =>
      match nth_error (pending w) i with
      | Some (Timer _ history language) =>
          Some (commit w (remove_nth i (pending w))
                       (stopRecording_timeout history language now s))
      | _ => None
      end
  | GenerateSettled i out now =>
      match nth_error (pending w) i with
      | Some (GenerateFetch req start) =>
          Some (commit w (remove_nth i (pending w))
                  (generateResponses_resume (patronText req) start out now s,
                   []))
      | _ => None
      end
  | OptionClick i =>
      match nth_error (renderedOptions s) i with
      | Some option => Some (commit w (pending w) (selectResponse option s))
      | None => None
      end
  | TtsSettled i out voices =>
      match nth_error (pending w) i with
      | Some (TtsFetch req option) =>
          match speakText_resume req out voices with
          | Some m =>
              Some (commit w (remove_nth i (pending w))
                           (s, [Suspend (Playback m option)]))
          | None => Some (commit w (remove_nth i (pending w)) (s, []))
          end
      | _ => None
      end
  | MediaFired i ev =>
      match nth_error (pending w) i with
      | Some (Playback m option) =>
          match handlerOf m ev with
          | Some PromiseResolve =>
              Some (commit w (remove_nth i (pending w))
                           (selectResponse_resume option s, []))
          | Some PromiseReject =>
              Some (commit w (remove_nth i (pending w)) (s, []))
          | None => Some w
          end
      | _ => None
      end
  | ClearClick =>
      match conversationHistory s with
      | [] => None
      | _ :: _ => Some (commit w (pending w) (clearHistory s, []))
      end
  | LanguageChange code =>
      Some (commit w (pending w) (setSelectedLanguage code s, []))
  end.

Fixpoint run (w : World) (es : list Event) : option World :=
  match es with
  | [] => Some w
  | e :: rest =>
      match step w e with
      | Some w' => run w' rest
      | None => None
      end
  end.

(* ------------------------------------------------------------------ *)
(** *** The session state the flags stand for *)

Inductive SessionState :=
| Idle | Recording | Processing | AwaitingSelection | Speaking.

(** The session state that the three flags and the options on display
    encode, when they encode one: a session is in exactly one state at a
    time, so a combination with two of them up encodes none, and neither
    does a state whose render throws, which has no page. *)
Definition sessionState (s : AppState) : option SessionState :=
  match render s with
  | None => None
  | Some options =>
      match isRecording s, isProcessing s, isSpeaking s, options with
      | false, false, false, [] => Some Idle
      | true, false, false, [] => Some Recording
      | false, true, false, [] => Some Processing
      | false, false, false, _ :: _ => Some AwaitingSelection
      | false, false, true, [] => Some Speaking
      | _, _, _, _ => None
      end
  end.

(* ------------------------------------------------------------------ *)
(** *** Vocabulary of the properties *)

(** The finalized segments a recognition event delivers, in order. *)
Definition finalSegmentsOf (e : ResultEvent) : list jsstring :=
  map res_transcript (filter isFinal (skipn (resultIndex e) (results e))).

(** The finalized segments of a run of events, in arrival order. *)
Definition finalSegments (es : list Event) : list jsstring :=
  flat_map (fun e => match e with
                     | RecognitionOnResult e => finalSegmentsOf e
                     | _ => []
                     end) es.

(** Events of the recognition engine that deliver text or an error. *)
Definition captureEvent (e : Event) : bool :=
  match e with
  | RecognitionOnResult _ | RecognitionOnError _ => true
  | _ => false
  end.

(** Every event but the settlement of a generation request. *)
Definition notGenerateSettled (e : Event) : bool :=
  match e with
  | GenerateSettled _ _ _ => false
  | _ => true
  end.

(** S1 .. Sn with one space between neighbours. *)
Fixpoint joinedBySpaces (segs : list jsstring) : jsstring :=
  match segs with
  | [] => []
  | [x] => x
  | x :: rest => x ++ lit " " ++ joinedBySpaces rest
  end.

(** [t] is [s] without its surrounding white space. *)
Definition trimmedOf (s t : jsstring) : Prop :=
  exists pre post,
    s = pre ++ t ++ post /\
    forallb Js.isWhiteSpace pre = true /\
    forallb Js.isWhiteSpace post = true /\
    (forall c r, t = c :: r -> Js.isWhiteSpace c = false) /\
    (forall r c, t = r ++ [c] -> Js.isWhiteSpace c = false).

(** The request fails in the component's eyes: the transport or the
    decoding of the body throws, the payload is [null], or its [success]
    field is falsy. *)
Definition generationFails (out : FetchOutcome) : bool :=
  match out with
  | FetchThrows => true
  | FetchData data =>
      match get data (lit "success") with
      | None => true
      | Some success => negb (truthy success)
      end
  end.

(** A payload value is a reply option: an object whose [tone] and
    [response] are strings. *)
Definition isResponseOption (v : JsVal) : bool :=
  match v with
  | JObj fields =>
      match lookup (lit "tone") fields, lookup (lit "response") fields with
      | JStr _, JStr _ => true
      | _, _ => false
      end
  | _ => false
  end.

(** The [options] field of a payload is a list of reply options. *)
Definition hasOptionsList (data : JsVal) : bool :=
  match get data (lit "options") with
  | Some (JArr l) => forallb isResponseOption l
  | _ => false
  end.

Definition errorStatus (st : Status) : Prop :=
  st = {| message := lit "Connection error"; color := lit "red" |} \/
  st = {| message := lit "Error generating responses"; color := lit "red" |}.

(** The neutral pitch and the normal rate of the speech synthesis
    interface (its defaults). *)
Definition neutralPitch : Q := 1.
Definition normalRate : Q := 1.

(** What the result and error events of the recognition engine leave
    alone. *)
Definition captureFrame (s s' : AppState) : Prop :=
  isRecording s' = isRecording s /\
  isSpeaking s' = isSpeaking s /\
  isProcessing s' = isProcessing s /\
  responseOptions s' = responseOptions s /\
  conversationHistory s' = conversationHistory s /\
  selectedLanguage s' = selectedLanguage s /\
  recognitionRef s' = recognitionRef s.

(** Case analysis on every [match] and [if] of the goal. *)
Ltac split_cases :=
  repeat match goal with
         | |- context [match ?x with _ => _ end] => destruct x eqn:?
         | |- context [if ?x then _ else _] => destruct x eqn:?
         end.

(* ------------------------------------------------------------------ *)
(** *** The render's status colours, and further vocabulary *)

(** [statusColors[c]] of the render, the class given to the status line;
    [undefined] for a colour that is no key of the table. *)
Definition statusColors (c : jsstring) : JsVal :=
  if Js.eqb c (lit "green") then JStr (lit "text-green-600")
  else if Js.eqb c (lit "red") then JStr (lit "text-red-600")
  else if Js.eqb c (lit "orange") then JStr (lit "text-orange-600")
  else if Js.eqb c (lit "blue") then JStr (lit "text-blue-600")
  else if Js.eqb c (lit "gray") then JStr (lit "text-gray-600")
  else JUndefined.

(** The worlds the component can be in: those some run of events reaches
    from the first render. *)
Definition reachable (w : World) : Prop :=
  exists es, run initialWorld es = Some w.

(** A recognition object as [initializeRecognition] configures it. *)
Definition configured (r : Recognition) : Prop :=
  continuous r = true /\
  interimResults r = true /\
  lang r = (if Js.eqb (onstart_language r) (lit "raj-IN")
            then lit "hi-IN" else onstart_language r).

(** Events that neither settle a suspension nor reach the mic or an
    option: recognition results and errors, the clear button, the
    language selector. *)
Definition quietEvent (e : Event) : bool :=
  match e with
  | RecognitionOnResult _ | RecognitionOnError _
  | ClearClick | LanguageChange _ => true
  | _ => false
  end.

Definition notClearClick (e : Event) : bool :=
  match e with
  | ClearClick => false
  | _ => true
  end.

Definition languageChange (e : Event) : bool :=
  match e with
  | LanguageChange _ => true
  | _ => false
  end.

(** A text with no white space at either end. *)
Definition noSurroundingSpace (t : jsstring) : Prop :=
  (forall c r, t = c :: r -> Js.isWhiteSpace c = false) /\
  (forall r c, t = r ++ [c] -> Js.isWhiteSpace c = false).

(** The roles the component writes in the log. *)
Definition loggedRole (r : jsstring) : Prop :=
  r = lit "Patron" \/ exists t, r = lit "Pooja (" ++ t ++ lit ")".

(** The payload of a speech request carries audio to play: it is an
    object whose [success] and [audio] are both truthy. *)
Definition carriesAudio (out : FetchOutcome) : bool :=
  match out with
  | FetchData (JObj fields) =>
      truthy (lookup (lit "success") fields)
      && truthy (lookup (lit "audio") fields)
  | _ => false
  end.

(** The audio that the payload of a speech request carries, if it carries
    any, can be converted to a string: it is a string, a number or [true],
    or an object or list free of own [toString] properties. *)
Definition audioConverts (out : FetchOutcome) : bool :=
  match out with
  | FetchData (JObj fields) =>
      if carriesAudio out
      then match toString (lookup (lit "audio") fields) with
           | Some _ => true
           | None => false
           end
      else true
  | _ => true
  end.

(** The readings of [Date.now()]: integral time values. *)
Definition clockReading (t : Z) : Prop :=
  (Z.abs t <= 8640000000000000)%Z.

(** A status the render shows properly: its colour is a key of
    [statusColors] and its message is not empty. *)
Definition statusShown (st : Status) : Prop :=
  (exists cls, statusColors (color st) = JStr cls) /\ message st <> [].

(** What the component never sends to the generation service: an empty
    text, or one with white space around it. *)
Definition sendable (t : jsstring) : Prop :=
  t <> [] /\ noSurroundingSpace t.

(** A status is shown: it is the old one, [H], or a literal one. *)
Ltac status_shown H :=
  first [ exact H
        | split; [eexists; reflexivity | cbn; discriminate] ].

(** Case analysis along the paths of [handleMicClick] on the state [s]. *)
Ltac mic_paths s supported startThrows :=
  unfold handleMicClick;
  destruct (isSpeaking s) eqn:?;
  [ | let Er := fresh "Er" in
      destruct (isRecording s) eqn:Er;
      [ unfold stopRecording; rewrite Er;
        destruct (recognitionRef s) eqn:?
      | let E := fresh "E" in
        unfold startRecording, initializeRecognition;
        destruct (recognitionRef s) eqn:E; destruct supported;
        cbn; rewrite ?E; destruct startThrows ] ];
  cbn.

(* ================================================================== *)
(** ** Facts about strings *)
(* ================================================================== *)

Module JsFacts.

Lemma eqb_eq (a b : jsstring) : Js.eqb a b = true <-> a = b.
Proof.
  unfold Js.eqb; destruct (list_eq_dec N.eq_dec a b); split; congruence.
Qed.

Lemma eqb_refl (a : jsstring) : Js.eqb a a = true.
Proof. now apply eqb_eq. Qed.

Lemma eqb_neq (a b : jsstring) : Js.eqb a b = false <-> a <> b.
Proof.
  unfold Js.eqb; destruct (list_eq_dec N.eq_dec a b); split; congruence.
Qed.

Lemma join_from_succ (sep : jsstring) (l : list jsstring) :
  forall k acc,
    Js.join_from sep (S k) acc l = acc ++ flat_map (fun x => sep ++ x) l.
Proof.
  induction l as [|x r IH]; intros k acc; simpl.
  - now rewrite app_nil_r.
  - rewrite IH. now rewrite <- !app_assoc.
Qed.

Lemma joinedBySpaces_cons (x : jsstring) (r : list jsstring) :
  joinedBySpaces (x :: r) = x ++ flat_map (fun y => lit " " ++ y) r.
Proof.
  revert x; induction r as [|y r IH]; intros x.
  - simpl. now rewrite app_nil_r.
  - change (joinedBySpaces (x :: y :: r))
      with (x ++ lit " " ++ joinedBySpaces (y :: r)).
    rewrite IH. cbn [flat_map]. now rewrite <- ?app_assoc.
Qed.

(** The loop of [join] computes S1 .. Sn with single spaces between. *)
Lemma join_spaces (l : list jsstring) :
  Js.join (lit " ") l = joinedBySpaces l.
Proof.
  destruct l as [|x r]; [reflexivity|].
  rewrite joinedBySpaces_cons. unfold Js.join. simpl Js.join_from.
  now rewrite join_from_succ.
Qed.

Lemma trimStart_split (s : jsstring) :
  exists pre, s = pre ++ Js.trimStart s /\ forallb Js.isWhiteSpace pre = true.
Proof.
  induction s as [|c r [pre [E W]]]; [now exists []|].
  simpl. destruct (Js.isWhiteSpace c) eqn:Hc.
  - exists (c :: pre). simpl. rewrite Hc, W. now rewrite <- E.
  - now exists [].
Qed.

Lemma trimStart_head (s : jsstring) c r :
  Js.trimStart s = c :: r -> Js.isWhiteSpace c = false.
Proof.
  induction s as [|d t IH]; simpl; [discriminate|].
  destruct (Js.isWhiteSpace d) eqn:Hd; [exact IH|].
  intros E; injection E as -> _; exact Hd.
Qed.

Lemma forallb_rev (f : N -> bool) (l : list N) :
  forallb f l = true -> forallb f (rev l) = true.
Proof.
  rewrite !forallb_forall. intros H x Hx. apply H. now apply in_rev.
Qed.

Lemma trimEnd_split (s : jsstring) :
  exists post, s = Js.trimEnd s ++ post /\
               forallb Js.isWhiteSpace post = true.
Proof.
  destruct (trimStart_split (rev s)) as [pre [E W]].
  exists (rev pre). split; [|now apply forallb_rev].
  unfold Js.trimEnd. rewrite <- rev_app_distr, <- E. now rewrite rev_involutive.
Qed.

Lemma trimEnd_last (s : jsstring) r c :
  Js.trimEnd s = r ++ [c] -> Js.isWhiteSpace c = false.
Proof.
  unfold Js.trimEnd. intros E.
  apply (f_equal (@rev N)) in E. rewrite rev_involutive, rev_app_distr in E.
  simpl in E. exact (trimStart_head _ _ _ E).
Qed.

(** [trim] removes exactly the surrounding white space. *)
Lemma trim_trimmedOf (s : jsstring) : trimmedOf s (Js.trim s).
Proof.
  unfold Js.trim.
  destruct (trimStart_split s) as [pre [E1 W1]].
  destruct (trimEnd_split (Js.trimStart s)) as [post [E2 W2]].
  exists pre, post. repeat split; trivial.
  - rewrite <- E2. exact E1.
  - intros c r E. rewrite E in E2. simpl in E2.
    exact (trimStart_head _ _ _ E2).
  - intros r c E. exact (trimEnd_last _ _ _ E).
Qed.

Lemma trim_nil : Js.trim [] = [].
Proof. reflexivity. Qed.

End JsFacts.

(* ================================================================== *)
(** ** Facts about the handlers *)
(* ================================================================== *)

Lemma commit_pure (w : World) (s : AppState) :
  commit w (pending w) (s, []) =
  {| app := s; pending := pending w; calls := calls w |}.
Proof. unfold commit; simpl. now rewrite !app_nil_r. Qed.

Lemma nth_error_snoc (l : list Task) (t : Task) :
  nth_error (l ++ [t]) (List.length l) = Some t.
Proof. rewrite nth_error_app2, Nat.sub_diag; auto. Qed.

Lemma remove_nth_snoc (l : list Task) (t : Task) :
  remove_nth (List.length l) (l ++ [t]) = l.
Proof.
  unfold remove_nth.
  rewrite (skipn_all2 (l ++ [t])) by (rewrite length_app; simpl; lia).
  rewrite firstn_app, Nat.sub_diag, firstn_all. simpl.
  now rewrite !app_nil_r.
Qed.

Lemma in_remove_nth (l : list Task) (i : nat) (t u : Task) :
  In t l -> nth_error l i = Some u -> t <> u -> In t (remove_nth i l).
Proof.
  unfold remove_nth. revert i; induction l as [|x r IH]; intros i Hin Hn Hne.
  - destruct Hin.
  - destruct i as [|i]; simpl in *.
    + injection Hn as ->. destruct Hin as [->|Hin]; [congruence|exact Hin].
    + destruct Hin as [->|Hin]; [now left|right; eauto].
Qed.

(** The loop of [onresult] pushes the final texts in order. *)
Lemma onresult_loop_finals (rs : list SpeechResult) :
  forall finals interim,
    fst (onresult_loop rs finals interim) =
    finals ++ map res_transcript (filter isFinal rs).
Proof.
  induction rs as [|r rest IH]; intros finals interim; simpl.
  - now rewrite app_nil_r.
  - destruct (isFinal r); rewrite IH; [|reflexivity].
    simpl. now rewrite <- app_assoc.
Qed.

Lemma onresult_ref (e : ResultEvent) (s : AppState) :
  finalTranscriptRef (onresult e s) = finalTranscriptRef s ++ finalSegmentsOf e.
Proof.
  unfold onresult, finalSegmentsOf.
  pose proof (onresult_loop_finals (skipn (resultIndex e) (results e))
                (finalTranscriptRef s) []) as H.
  destruct (onresult_loop _ _ _) as [finals interim]. simpl in *. exact H.
Qed.

Lemma step_pure (w : World) (e : Event) (s : AppState) :
  step w e = Some (commit w (pending w) (s, [])) ->
  step w e = Some {| app := s; pending := pending w; calls := calls w |}.
Proof. now rewrite commit_pure. Qed.

Lemma world_eta (w : World) :
  {| app := app w; pending := pending w; calls := calls w |} = w.
Proof. now destruct w. Qed.

(** The render looks at no other state than the options. *)
Lemma render_options (s s' : AppState) :
  responseOptions s' = responseOptions s -> render s' = render s.
Proof. unfold render. now intros ->. Qed.

Lemma renderedOptions_options (s s' : AppState) :
  responseOptions s' = responseOptions s ->
  renderedOptions s' = renderedOptions s.
Proof.
  intros H. unfold renderedOptions. now rewrite (render_options s s' H).
Qed.

Lemma render_empty (s : AppState) :
  responseOptions s = JArr [] -> render s = Some [].
Proof. unfold render. now intros ->. Qed.

Lemma renderedOptions_empty (s : AppState) :
  responseOptions s = JArr [] -> renderedOptions s = [].
Proof.
  intros H. unfold renderedOptions. now rewrite (render_empty s H).
Qed.

(** A list of options that can all be shown is what gets buttons. *)
Lemma render_shown (s : AppState) (l : list JsVal) :
  responseOptions s = JArr l -> forallb optionShown l = true ->
  render s = Some l.
Proof. unfold render. now intros -> ->. Qed.

(** A button stands for an element of a list held by the state, the
    render of which has not thrown. *)
Lemma renderedOptions_button (s : AppState) (i : nat) (o : JsVal) :
  nth_error (renderedOptions s) i = Some o ->
  exists l, responseOptions s = JArr l /\ render s = Some l /\
            nth_error l i = Some o.
Proof.
  unfold renderedOptions, render.
  destruct (responseOptions s) as [| | b | t | t | l | fields];
    try (destruct i; discriminate).
  - destruct t; destruct i; discriminate.
  - destruct (forallb optionShown l); [eauto|destruct i; discriminate].
  - destruct (greaterThanZero _) as [[|]|]; destruct i; discriminate.
Qed.

(** The flags behind each session state. *)
Lemma sessionState_flags (s : AppState) (st : SessionState) :
  sessionState s = Some st ->
  isRecording s = match st with Recording => true | _ => false end /\
  isProcessing s = match st with Processing => true | _ => false end /\
  isSpeaking s = match st with Speaking => true | _ => false end /\
  (st <> AwaitingSelection -> renderedOptions s = []).
Proof.
  unfold sessionState, renderedOptions.
  destruct (render s) as [options|]; [|discriminate].
  destruct (isRecording s), (isProcessing s), (isSpeaking s), options;
    intros H; try discriminate H;
    injection H as <-; repeat split; congruence.
Qed.

(** A session state is that of a page: the render has not thrown. *)
Lemma sessionState_render (s : AppState) (st : SessionState) :
  sessionState s = Some st ->
  st <> AwaitingSelection -> render s = Some [].
Proof.
  unfold sessionState.
  destruct (render s) as [options|]; [|discriminate].
  destruct (isRecording s), (isProcessing s), (isSpeaking s), options;
    intros H; try discriminate H; injection H as <-; congruence.
Qed.

Lemma sessionState_idle (s : AppState) :
  isRecording s = false -> isProcessing s = false -> isSpeaking s = false ->
  render s = Some [] -> sessionState s = Some Idle.
Proof. unfold sessionState. now intros -> -> -> ->. Qed.

(* ================================================================== *)
(** ** Recognition errors *)
(* ================================================================== *)

(** C9.  A recognition error event whose code is "aborted" or "no-speech"
    leaves the whole component as it was: no state change, no status
    change, nothing called or suspended.  Any other code only replaces the
    status by the message "Error: <code>" in red; the session state the
    flags stand for is the same before and after. *)
Theorem recognition_error_suppressed_or_surfaced
    (w : World) (error : jsstring) :
  exists w',
    step w (RecognitionOnError error) = Some w' /\
    pending w' = pending w /\
    calls w' = calls w /\
    sessionState (app w') = sessionState (app w) /\
    (error = lit "aborted" \/ error = lit "no-speech" -> w' = w) /\
    (error <> lit "aborted" -> error <> lit "no-speech" ->
     app w' = setStatus (lit "Error: " ++ error) (lit "red") (app w)).
Proof.
  exists {| app := onerror error (app w);
            pending := pending w; calls := calls w |}.
  split; [apply step_pure; reflexivity|].
  cbn [app pending calls]. unfold onerror.
  destruct (Js.eqb error (lit "aborted")) eqn:Ea;
    [apply JsFacts.eqb_eq in Ea | apply JsFacts.eqb_neq in Ea];
    (destruct (Js.eqb error (lit "no-speech")) eqn:En;
     [apply JsFacts.eqb_eq in En | apply JsFacts.eqb_neq in En]);
    cbn [negb andb]; repeat split; trivial.
  all: try (intros _; apply world_eta).
  all: try (intros; contradiction).
  intros [H|H]; contradiction.
Qed.

Lemma recognition_error_suppressed_or_surfaced_witness :
  step initialWorld (RecognitionOnError (lit "no-speech")) = Some initialWorld
  /\ exists w',
       step initialWorld (RecognitionOnError (lit "network")) = Some w' /\
       status (app w') =
       {| message := lit "Error: network"; color := lit "red" |}.
Proof.
  split.
  - destruct (recognition_error_suppressed_or_surfaced
                initialWorld (lit "no-speech"))
      as [w' [Hs [_ [_ [_ [Hq _]]]]]].
    rewrite Hs, Hq; [reflexivity | right; reflexivity].
  - destruct (recognition_error_suppressed_or_surfaced
                initialWorld (lit "network"))
      as [w' [Hs [_ [_ [_ [_ Hq]]]]]].
    exists w'. split; [exact Hs|].
    rewrite Hq; [reflexivity | discriminate | discriminate].
Defined.

(* ================================================================== *)
(** ** The mic button while speaking *)
(* ================================================================== *)

(** C6.  While the speaking flag is set, a mic click changes nothing but
    the status, which becomes "Wait..." (orange): the session state is the
    same, the recognition instance in the ref is the same, no recognition
    instance is started or stopped and nothing is suspended. *)
Theorem mic_click_rejected_while_speaking
    (w : World) (supported startThrows : bool) :
  isSpeaking (app w) = true ->
  exists w',
    step w (MicClick supported startThrows) = Some w' /\
    app w' = setStatus (lit "Wait...") (lit "orange") (app w) /\
    sessionState (app w') = sessionState (app w) /\
    recognitionRef (app w') = recognitionRef (app w) /\
    calls w' = calls w /\
    pending w' = pending w.
Proof.
  intros H.
  exists {| app := setStatus (lit "Wait...") (lit "orange") (app w);
            pending := pending w; calls := calls w |}.
  split; [|repeat split].
  apply step_pure. cbn [step]. unfold handleMicClick. now rewrite H.
Qed.

Lemma mic_click_rejected_while_speaking_witness :
  exists w',
    step {| app := setIsSpeaking true initialState;
            pending := []; calls := [] |} (MicClick true false) = Some w' /\
    sessionState (app w') = Some Speaking /\
    recognitionRef (app w') = None /\
    calls w' = [].
Proof.
  destruct (mic_click_rejected_while_speaking
              {| app := setIsSpeaking true initialState;
                 pending := []; calls := [] |} true false eq_refl)
    as [w' [Hs [_ [Hst [Hr [Hc _]]]]]].
  exists w'. repeat split; [exact Hs | rewrite Hst | rewrite Hr | rewrite Hc];
    reflexivity.
Defined.

(* ================================================================== *)
(** ** The local synthesis fallback *)
(* ================================================================== *)

(** C8.  For every text, language code and voice list, the utterance that
    [fallbackSpeak] builds carries the text, has the normal rate, a pitch
    strictly above the neutral one, and the locale hi-IN for the codes
    hi-IN and raj-IN, ta-IN for ta-IN, and en-IN for every other code. *)
Theorem fallback_utterance_configuration
    (selected t : jsstring) (voices : list Voice) :
  let u := fallbackSpeak selected voices t in
  utt_text u = t /\
  rate u == normalRate /\
  neutralPitch < pitch u /\
  (selected = lit "hi-IN" \/ selected = lit "raj-IN" ->
   utt_lang u = lit "hi-IN") /\
  (selected = lit "ta-IN" -> utt_lang u = lit "ta-IN") /\
  (selected <> lit "hi-IN" -> selected <> lit "raj-IN" ->
   selected <> lit "ta-IN" -> utt_lang u = lit "en-IN").
Proof.
  cbn [fallbackSpeak utt_text rate pitch utt_lang].
  split; [reflexivity|]. split; [reflexivity|]. split; [reflexivity|].
  unfold fallbackLang. repeat split.
  - intros [->| ->]; reflexivity.
  - intros ->; reflexivity.
  - intros Hh Hr Ht.
    apply JsFacts.eqb_neq in Hh, Hr, Ht. now rewrite Hh, Hr, Ht.
Qed.

Lemma fallback_utterance_configuration_witness :
  utt_lang (fallbackSpeak (lit "raj-IN") [] (lit "Namaste")) = lit "hi-IN" /\
  utt_lang (fallbackSpeak (lit "ta-IN") [] (lit "Vanakkam")) = lit "ta-IN" /\
  utt_lang (fallbackSpeak (lit "en-US") [] (lit "Hello")) = lit "en-IN".
Proof.
  split; [|split].
  - apply (fallback_utterance_configuration (lit "raj-IN") (lit "Namaste") []).
    right; reflexivity.
  - apply (fallback_utterance_configuration (lit "ta-IN") (lit "Vanakkam") []).
    reflexivity.
  - apply (fallback_utterance_configuration (lit "en-US") (lit "Hello") []);
      discriminate.
Defined.

(* ================================================================== *)
(** ** Starting a recording *)
(* ================================================================== *)

Lemma initializeRecognition_frame (supported : bool) (s : AppState) :
  let s' := fst (initializeRecognition supported s) in
  isRecording s' = isRecording s /\ isSpeaking s' = isSpeaking s /\
  isProcessing s' = isProcessing s /\
  conversationHistory s' = conversationHistory s /\
  finalTranscriptRef s' = finalTranscriptRef s /\
  (snd (initializeRecognition supported s) = true ->
   recognitionRef s' <> None) /\
  (recognitionRef s <> None -> recognitionRef s' <> None).
Proof.
  unfold initializeRecognition. destruct supported; cbn; repeat split;
    trivial; discriminate.
Qed.

(** What [startRecording] leaves once it is past its first line. *)
Lemma startRecording_resets (supported startThrows : bool) (s : AppState) :
  recognitionRef s <> None \/ supported = true ->
  let r := startRecording supported startThrows s in
  transcript (fst r) = [] /\
  responseOptions (fst r) = JArr [] /\
  (startThrows = false ->
   exists rec, snd r = [RecognitionStart rec] /\
               recognitionRef (fst r) = Some rec).
Proof.
  intros H. unfold startRecording.
  assert (G : exists s1,
             match recognitionRef s with
             | Some _ => (s, true)
             | None => initializeRecognition supported s
             end = (s1, true) /\ recognitionRef s1 <> None).
  { destruct (recognitionRef s) eqn:E.
    - exists s. split; [reflexivity|congruence].
    - destruct H as [H | ->]; [congruence|].
      eexists. split; [reflexivity|]. cbn. discriminate. }
  destruct G as [s1 [-> Hs1]]. cbn [negb].
  pose proof (initializeRecognition_frame supported s1) as F.
  cbn zeta in F. destruct F as (_ & _ & _ & _ & _ & _ & F).
  specialize (F Hs1). cbn [recognitionRef setResponseOptions setTranscript].
  destruct (recognitionRef (fst (initializeRecognition supported s1)))
    as [rec|] eqn:E; [|congruence].
  destruct startThrows; cbn; repeat split; try discriminate.
  intros _. exists rec. split; [reflexivity|exact E].
Qed.

(** C5.  Whatever the session holds (finalized segments, displayed
    transcript, pending options), a mic click that starts a recording (the
    session neither speaking nor recording, and a recognition instance
    present or obtainable) leaves the displayed transcript empty and the
    response options empty; and when the engine reports that it started,
    the list of finalized segments is emptied as well, the transcript and
    the options still being empty. *)
Theorem start_recording_resets
    (w : World) (supported startThrows : bool) :
  isSpeaking (app w) = false ->
  isRecording (app w) = false ->
  recognitionRef (app w) <> None \/ supported = true ->
  exists w1,
    step w (MicClick supported startThrows) = Some w1 /\
    transcript (app w1) = [] /\
    responseOptions (app w1) = JArr [] /\
    forall r, exists w2,
      step w1 (RecognitionOnStart r) = Some w2 /\
      isRecording (app w2) = true /\
      transcript (app w2) = [] /\
      finalTranscriptRef (app w2) = [] /\
      responseOptions (app w2) = JArr [].
Proof.
  intros Hs Hr Hi.
  destruct (startRecording_resets supported startThrows (app w) Hi)
    as (Ht & Ho & _).
  eexists. split.
  { cbn [step]. unfold handleMicClick. rewrite Hs, Hr. reflexivity. }
  cbn [commit app]. repeat split; trivial.
  intros r. eexists. split; [reflexivity|].
  cbn. repeat split; trivial.
Qed.

Lemma start_recording_resets_witness :
  let busy :=
    {| isRecording := false; isSpeaking := false; isProcessing := false;
       transcript := lit "More tea please";
       responseOptions :=
         JArr [optionVal {| tone := lit "polite"; response := lit "Sure." |}];
       conversationHistory := [];
       selectedLanguage := lit "hi-IN";
       status := {| message := lit "Ready"; color := lit "gray" |};
       recognitionRef := None;
       finalTranscriptRef := [lit "More tea"; lit "please"] |} in
  exists w1,
    step {| app := busy; pending := []; calls := [] |} (MicClick true false)
    = Some w1 /\
    transcript (app w1) = [] /\ responseOptions (app w1) = JArr [].
Proof.
  intros busy.
  destruct (start_recording_resets
              {| app := busy; pending := []; calls := [] |} true false
              eq_refl eq_refl (or_intror eq_refl))
    as [w1 [H1 [H2 [H3 _]]]].
  exists w1. repeat split; assumption.
Defined.

(* ================================================================== *)
(** ** Capture events, stopping, and the settle delay *)
(* ================================================================== *)

Lemma captureFrame_refl (s : AppState) : captureFrame s s.
Proof. repeat split. Qed.

Lemma captureFrame_trans (a b c : AppState) :
  captureFrame a b -> captureFrame b c -> captureFrame a c.
Proof.
  unfold captureFrame.
  intros (A1 & A2 & A3 & A4 & A5 & A6 & A7) (B1 & B2 & B3 & B4 & B5 & B6 & B7).
  repeat split; congruence.
Qed.

Lemma onresult_frame (e : ResultEvent) (s : AppState) :
  captureFrame s (onresult e s).
Proof.
  unfold onresult. destruct (onresult_loop _ _ _). repeat split.
Qed.

Lemma onerror_frame (error : jsstring) (s : AppState) :
  captureFrame s (onerror error s) /\
  finalTranscriptRef (onerror error s) = finalTranscriptRef s.
Proof.
  unfold onerror.
  destruct (negb _ && negb _); repeat split.
Qed.

Lemma run_app (es1 es2 : list Event) :
  forall w,
    run w (es1 ++ es2) =
    match run w es1 with
    | Some w1 => run w1 es2
    | None => None
    end.
Proof.
  induction es1 as [|e es1 IH]; intros w; simpl; [reflexivity|].
  destruct (step w e); [apply IH|reflexivity].
Qed.

(** A run of capture events only moves the transcript, the status and the
    list of finalized segments, to which it appends the segments
    delivered, in order. *)
Lemma run_capture (es : list Event) :
  forall w,
    forallb captureEvent es = true ->
    exists s',
      run w es = Some {| app := s'; pending := pending w; calls := calls w |}
      /\ captureFrame (app w) s'
      /\ finalTranscriptRef s' = finalTranscriptRef (app w) ++ finalSegments es.
Proof.
  induction es as [|e es IH]; intros w Hc.
  - exists (app w). simpl. rewrite world_eta, app_nil_r.
    repeat split.
  - simpl in Hc. apply andb_true_iff in Hc as [He Hc].
    destruct e; try discriminate He; cbn [run step]; rewrite commit_pure.
    + destruct (IH {| app := onresult e (app w); pending := pending w;
                      calls := calls w |} Hc) as (s' & R & F & T).
      exists s'. cbn [app pending calls] in *. split; [exact R|]. split.
      * eapply captureFrame_trans; [apply onresult_frame|exact F].
      * rewrite T, onresult_ref. cbn [finalSegments flat_map].
        now rewrite app_assoc.
    + destruct (IH {| app := onerror error (app w); pending := pending w;
                      calls := calls w |} Hc) as (s' & R & F & T).
      destruct (onerror_frame error (app w)) as [F0 T0].
      exists s'. cbn [app pending calls] in *. split; [exact R|]. split.
      * eapply captureFrame_trans; [exact F0|exact F].
      * rewrite T, T0. reflexivity.
Qed.

(** A stop click, the capture events of the settle delay, then the timer:
    the callback runs on the state those events left. *)
Lemma stop_then_timeout
    (w : World) (r : Recognition) (supported startThrows : bool)
    (es : list Event) (now : Z) :
  recognitionRef (app w) = Some r ->
  isRecording (app w) = true ->
  isSpeaking (app w) = false ->
  forallb captureEvent es = true ->
  let timer := Timer 500 (conversationHistory (app w))
                     (selectedLanguage (app w)) in
  exists s2,
    run w (MicClick supported startThrows
             :: es ++ [TimerFired (List.length (pending w)) now]) =
    Some (commit {| app := s2; pending := pending w ++ [timer];
                    calls := calls w ++ [RecognitionStop r; Suspend timer] |}
                 (pending w)
                 (stopRecording_timeout (conversationHistory (app w))
                    (selectedLanguage (app w)) now s2))
    /\ captureFrame (setIsRecording false (app w)) s2
    /\ finalTranscriptRef s2 = finalTranscriptRef (app w) ++ finalSegments es.
Proof.
  intros Hr Hrec Hsp Hc timer.
  set (w1 := {| app := setIsRecording false (app w);
                pending := pending w ++ [timer];
                calls := calls w ++ [RecognitionStop r; Suspend timer] |}).
  assert (S1 : step w (MicClick supported startThrows) = Some w1).
  { cbn [step]. unfold handleMicClick, stopRecording.
    rewrite Hsp, Hrec, Hr. reflexivity. }
  destruct (run_capture es w1 Hc) as (s2 & R & F & T).
  exists s2. split; [|split; [exact F|exact T]].
  cbn [run]. rewrite S1, run_app, R. cbn [run step pending app].
  subst w1; cbn [pending].
  rewrite nth_error_snoc, remove_nth_snoc. reflexivity.
Qed.

(** The stop of a recording that heard nothing, on the flags alone. *)
Lemma stop_without_speech_flags
    (w : World) (r : Recognition) (supported startThrows : bool)
    (es : list Event) (now : Z) :
  recognitionRef (app w) = Some r ->
  isRecording (app w) = true ->
  isSpeaking (app w) = false ->
  forallb captureEvent es = true ->
  Js.trim (Js.join (lit " ")
             (finalTranscriptRef (app w) ++ finalSegments es)) = [] ->
  exists w',
    run w (MicClick supported startThrows
             :: es ++ [TimerFired (List.length (pending w)) now]) = Some w' /\
    isRecording (app w') = false /\
    isSpeaking (app w') = false /\
    isProcessing (app w') = isProcessing (app w) /\
    responseOptions (app w') = responseOptions (app w) /\
    status (app w') =
      {| message := lit "No speech detected"; color := lit "orange" |} /\
    conversationHistory (app w') = conversationHistory (app w) /\
    pending w' = pending w /\
    calls w' =
      calls w ++ [RecognitionStop r;
                  Suspend (Timer 500 (conversationHistory (app w))
                                 (selectedLanguage (app w)))].
Proof.
  intros Hr Hrec Hsp Hc Hempty.
  destruct (stop_then_timeout w r supported startThrows es now
              Hr Hrec Hsp Hc) as (s2 & R & F & T).
  eexists. split; [exact R|].
  unfold stopRecording_timeout. rewrite T, Hempty.
  cbn [truthy commit app pending calls fst snd suspended flat_map].
  destruct F as (F1 & F2 & F3 & F4 & F5 & F6 & F7).
  cbn in F1, F2, F3, F4, F5.
  rewrite !app_nil_r. repeat split; cbn; congruence.
Qed.

(** C4.  The session is Recording.  The recording is stopped (mic click),
    the settle delay passes with only recognition results and errors
    arriving, and the finalized transcript is then empty (in particular
    when there is no finalized segment at all).  Then the session is Idle,
    the status is "No speech detected" (orange), the conversation log is
    what it was, and no generation request was issued: the calls made are
    the stop of the engine and the timer, and nothing is left suspended. *)
Theorem stop_without_speech
    (w : World) (r : Recognition) (supported startThrows : bool)
    (es : list Event) (now : Z) :
  sessionState (app w) = Some Recording ->
  recognitionRef (app w) = Some r ->
  forallb captureEvent es = true ->
  Js.trim (Js.join (lit " ")
             (finalTranscriptRef (app w) ++ finalSegments es)) = [] ->
  exists w',
    run w (MicClick supported startThrows
             :: es ++ [TimerFired (List.length (pending w)) now]) = Some w' /\
    sessionState (app w') = Some Idle /\
    status (app w') =
      {| message := lit "No speech detected"; color := lit "orange" |} /\
    conversationHistory (app w') = conversationHistory (app w) /\
    pending w' = pending w /\
    calls w' =
      calls w ++ [RecognitionStop r;
                  Suspend (Timer 500 (conversationHistory (app w))
                                 (selectedLanguage (app w)))].
Proof.
  intros Hst Hr Hc Hempty.
  destruct (sessionState_flags _ _ Hst) as (Hrec & Hp & Hsp & Ho).
  destruct (stop_without_speech_flags w r supported startThrows es now
              Hr Hrec Hsp Hc Hempty)
    as (w' & R & F1 & F2 & F3 & F4 & St & Hh & P & C).
  exists w'. repeat split; trivial.
  apply sessionState_idle; trivial; [congruence|].
  rewrite (render_options (app w) (app w') F4).
  apply (sessionState_render _ _ Hst). discriminate.
Qed.

Lemma stop_without_speech_witness :
  let r := {| continuous := true; interimResults := true;
              lang := lit "en-US"; onstart_language := lit "en-US" |} in
  let w := {| app := setRecognitionRef (Some r)
                       (setIsRecording true initialState);
              pending := []; calls := [] |} in
  let murmur := RecognitionOnResult
                  {| resultIndex := 0;
                     results := [{| res_transcript := lit "uh";
                                    isFinal := false |}] |} in
  exists w',
    run w [MicClick true false; murmur; TimerFired 0 1000] = Some w' /\
    sessionState (app w') = Some Idle /\
    status (app w') =
      {| message := lit "No speech detected"; color := lit "orange" |} /\
    conversationHistory (app w') = [] /\
    pending w' = [].
Proof.
  intros r w murmur.
  destruct (stop_without_speech w r true false [murmur] 1000
              eq_refl eq_refl eq_refl eq_refl)
    as (w' & R & I & St & Hh & Hp & _).
  exists w'. repeat split; trivial.
Defined.

Lemma finalSegments_app (es1 es2 : list Event) :
  finalSegments (es1 ++ es2) = finalSegments es1 ++ finalSegments es2.
Proof. unfold finalSegments. apply flat_map_app. Qed.

(** C7.  A recording starts (the engine's start event), finalized and
    interim results arrive, the recording is stopped, further results
    arrive during the settle delay, and the timer fires.  With S1 .. Sn
    the finalized segments delivered, in arrival order, the text handed to
    the generation request is S1 .. Sn joined by single spaces with the
    surrounding white space removed, whenever that text is not empty (an
    empty one issues no request). *)
Theorem final_transcript_passed_downstream
    (w : World) (r r0 : Recognition) (supported startThrows : bool)
    (es1 es2 : list Event) (now : Z) :
  recognitionRef (app w) = Some r ->
  isSpeaking (app w) = false ->
  forallb captureEvent es1 = true ->
  forallb captureEvent es2 = true ->
  let joined := joinedBySpaces (finalSegments (es1 ++ es2)) in
  Js.trim joined <> [] ->
  exists w' finalText,
    run w (RecognitionOnStart r0
             :: es1 ++ MicClick supported startThrows
             :: es2 ++ [TimerFired (List.length (pending w)) now]) = Some w' /\
    pending w' =
      pending w ++
      [GenerateFetch {| patronText := finalText;
                        req_history := conversationHistory (app w);
                        req_language := selectedLanguage (app w) |} now] /\
    finalText = Js.trim joined /\
    trimmedOf joined finalText.
Proof.
  intros Hr Hsp Hc1 Hc2 joined Hne.
  set (w0 := {| app := onstart r0 (app w); pending := pending w;
                calls := calls w |}).
  assert (S0 : step w (RecognitionOnStart r0) = Some w0)
    by (apply step_pure; reflexivity).
  destruct (run_capture es1 w0 Hc1) as (s1 & R1 & F1 & T1).
  set (w1 := {| app := s1; pending := pending w0; calls := calls w0 |}) in *.
  destruct F1 as (A1 & A2 & A3 & A4 & A5 & A6 & A7).
  cbn in A1, A2, A3, A4, A5, A6, A7, T1.
  destruct (stop_then_timeout w1 r supported startThrows es2 now)
    as (s2 & R2 & F2 & T2); cbn [app w1]; try congruence.
  exists (commit
            {| app := s2;
               pending := pending w1 ++
                 [Timer 500 (conversationHistory s1) (selectedLanguage s1)];
               calls := calls w1 ++
                 [RecognitionStop r;
                  Suspend (Timer 500 (conversationHistory s1)
                                 (selectedLanguage s1))] |}
            (pending w1)
            (stopRecording_timeout (conversationHistory s1)
               (selectedLanguage s1) now s2)),
         (Js.trim joined).
  split.
  { cbn [run]. rewrite S0, run_app, R1. exact R2. }
  assert (E : Js.trim (Js.join (lit " ") (finalTranscriptRef s2))
              = Js.trim joined).
  { rewrite T2. cbn [app w1]. rewrite T1, JsFacts.join_spaces.
    subst joined. now rewrite finalSegments_app. }
  unfold stopRecording_timeout. rewrite E.
  split; [|split; [reflexivity|apply JsFacts.trim_trimmedOf]].
  destruct (Js.trim joined) as [|c t] eqn:Ej; [congruence|].
  cbn. now rewrite A5, A6.
Qed.

Lemma final_transcript_passed_downstream_witness :
  let r := {| continuous := true; interimResults := true;
              lang := lit "en-US"; onstart_language := lit "en-US" |} in
  let w := {| app := setRecognitionRef (Some r) initialState;
              pending := []; calls := [] |} in
  let heard (t : string) (final : bool) :=
    RecognitionOnResult
      {| resultIndex := 0;
         results := [{| res_transcript := lit t; isFinal := final |}] |} in
  exists w',
    run w [RecognitionOnStart r;
           heard "More"%string false; heard " More tea"%string true;
           MicClick true false;
           heard "please "%string true;
           TimerFired 0 1000] = Some w' /\
    pending w' =
      [GenerateFetch {| patronText := lit "More tea please";
                        req_history := [];
                        req_language := lit "en-US" |} 1000].
Proof.
  intros r w heard.
  destruct (final_transcript_passed_downstream w r r true false
              [heard "More"%string false; heard " More tea"%string true]
              [heard "please "%string true] 1000
              eq_refl eq_refl eq_refl eq_refl)
    as (w' & t & R & P & E & _); [discriminate|].
  exists w'. split; [exact R|]. rewrite P, E. reflexivity.
Defined.

(* ================================================================== *)
(** ** Generation requests *)
(* ================================================================== *)

Lemma handleMicClick_frame (supported startThrows : bool) (s : AppState) :
  let s' := fst (handleMicClick supported startThrows s) in
  isProcessing s' = isProcessing s /\
  (responseOptions s = JArr [] -> responseOptions s' = JArr []).
Proof.
  unfold handleMicClick.
  destruct (isSpeaking s); [cbn; auto|].
  destruct (isRecording s) eqn:Er.
  - unfold stopRecording. rewrite Er.
    destruct (recognitionRef s); cbn; auto.
  - unfold startRecording, initializeRecognition.
    destruct (recognitionRef s) eqn:E; destruct supported; cbn;
      rewrite ?E; destruct startThrows; cbn; auto.
Qed.

Lemma stopRecording_timeout_frame
    (h : list ConversationEntry) (l : jsstring) (now : Z) (s : AppState) :
  let s' := fst (stopRecording_timeout h l now s) in
  (isProcessing s = true -> isProcessing s' = true) /\
  (responseOptions s = JArr [] -> responseOptions s' = JArr []).
Proof.
  unfold stopRecording_timeout, generateResponses.
  destruct (truthy _); cbn; split; trivial.
Qed.

Lemma selectResponse_frame (o : JsVal) (s : AppState) :
  let s' := fst (selectResponse o s) in
  isProcessing s' = isProcessing s /\ responseOptions s' = JArr [].
Proof. unfold selectResponse, speakText. split_cases; cbn; split; trivial. Qed.

Lemma selectResponse_resume_frame (o : JsVal) (s : AppState) :
  let s' := selectResponse_resume o s in
  isProcessing s' = isProcessing s /\ responseOptions s' = responseOptions s.
Proof. unfold selectResponse_resume. split_cases; cbn; split; trivial. Qed.

(** No event but the settlement of a generation request clears the
    processing flag, fills the response options, or removes a generation
    request from the suspensions. *)
Lemma step_keeps_request (w w' : World) (e : Event) :
  notGenerateSettled e = true ->
  step w e = Some w' ->
  (isProcessing (app w) = true -> isProcessing (app w') = true) /\
  (responseOptions (app w) = JArr [] -> responseOptions (app w') = JArr []) /\
  (forall req start,
      In (GenerateFetch req start) (pending w) ->
      In (GenerateFetch req start) (pending w')).
Proof.
  intros Hn Hs. destruct e; try discriminate Hn; cbn [step] in Hs.
  - (* mic click *)
    injection Hs as <-. cbn [commit app pending].
    destruct (handleMicClick_frame supported startThrows (app w)) as [P O].
    cbn zeta in P, O. rewrite P. repeat split; trivial.
    intros; apply in_or_app; now left.
  - injection Hs as <-. cbn. rewrite app_nil_r. repeat split; trivial.
  - injection Hs as <-. cbn [commit app pending fst snd suspended flat_map].
    rewrite app_nil_r.
    destruct (onresult_frame e (app w)) as (_ & _ & P & O & _).
    rewrite P, O. repeat split; trivial.
  - injection Hs as <-. cbn [commit app pending fst snd suspended flat_map].
    rewrite app_nil_r.
    destruct (onerror_frame error (app w)) as ((_ & _ & P & O & _) & _).
    rewrite P, O. repeat split; trivial.
  - (* timer *)
    destruct (nth_error (pending w) i) as [[ms h l| | |]|] eqn:En;
      try discriminate Hs.
    injection Hs as <-. cbn [commit app pending].
    destruct (stopRecording_timeout_frame h l now (app w)) as [P O].
    cbn zeta in P, O. repeat split; trivial.
    intros req start Hin. apply in_or_app; left.
    eapply in_remove_nth; [exact Hin|exact En|discriminate].
  - (* option click *)
    destruct (nth_error (renderedOptions (app w)) i) as [o|] eqn:En;
      try discriminate Hs.
    injection Hs as <-. cbn [commit app pending].
    destruct (selectResponse_frame o (app w)) as [P O].
    cbn zeta in P, O. rewrite P. repeat split; trivial.
    intros; apply in_or_app; now left.
  - (* speech request settled *)
    destruct (nth_error (pending w) i) as [[| |req o|]|] eqn:En;
      try discriminate Hs.
    destruct (speakText_resume req out voices); injection Hs as <-;
      cbn [commit app pending fst]; repeat split; trivial;
      intros req' start Hin; apply in_or_app; left;
      (eapply in_remove_nth; [exact Hin|exact En|discriminate]).
  - (* media event *)
    destruct (nth_error (pending w) i) as [[| | |m o]|] eqn:En;
      try discriminate Hs.
    destruct (handlerOf m ev) as [[|]|]; injection Hs as <-;
      cbn [commit app pending fst snd suspended flat_map];
      rewrite ?app_nil_r.
    + destruct (selectResponse_resume_frame o (app w)) as [P O].
      cbn zeta in P, O. rewrite P, O. repeat split; trivial.
      intros req start Hin.
      eapply in_remove_nth; [exact Hin|exact En|discriminate].
    + repeat split; trivial. intros req start Hin.
      eapply in_remove_nth; [exact Hin|exact En|discriminate].
    + repeat split; trivial.
  - destruct (conversationHistory (app w)); try discriminate Hs.
    injection Hs as <-. cbn. rewrite app_nil_r. repeat split; trivial.
  - injection Hs as <-. cbn. rewrite app_nil_r. repeat split; trivial.
Qed.

Lemma run_keeps_request (es : list Event) :
  forall w w',
    forallb notGenerateSettled es = true ->
    run w es = Some w' ->
    (isProcessing (app w) = true -> isProcessing (app w') = true) /\
    (responseOptions (app w) = JArr [] ->
     responseOptions (app w') = JArr []) /\
    (forall req start,
        In (GenerateFetch req start) (pending w) ->
        In (GenerateFetch req start) (pending w')).
Proof.
  induction es as [|e es IH]; intros w w' Hn Hr; cbn in Hr.
  - injection Hr as <-. repeat split; trivial.
  - cbn in Hn. apply andb_true_iff in Hn as [He Hn].
    destruct (step w e) as [w1|] eqn:Es; [|discriminate].
    destruct (step_keeps_request w w1 e He Es) as (P1 & O1 & I1).
    destruct (IH w1 w' Hn Hr) as (P2 & O2 & I2).
    repeat split; auto.
Qed.

(** The settlement of a generation request, for every outcome. *)
Lemma generateResponses_resume_flag
    (txt : jsstring) (start : Z) (out : FetchOutcome) (now : Z)
    (s : AppState) :
  let s' := generateResponses_resume txt start out now s in
  isProcessing s' = false /\
  isRecording s' = isRecording s /\
  isSpeaking s' = isSpeaking s.
Proof.
  unfold generateResponses_resume, generateResponses_catch.
  split_cases; cbn; repeat split.
Qed.

Lemma generateResponses_resume_failure
    (txt : jsstring) (start : Z) (out : FetchOutcome) (now : Z)
    (s : AppState) :
  generationFails out = true ->
  let s' := generateResponses_resume txt start out now s in
  conversationHistory s' = conversationHistory s /\
  responseOptions s' = responseOptions s /\
  errorStatus (status s').
Proof.
  unfold generationFails, generateResponses_resume, generateResponses_catch,
    errorStatus.
  destruct out as [|data]; [intros _; cbn; auto|].
  destruct data; cbn; auto;
    intros H; apply negb_true_iff in H; rewrite H; cbn; auto.
Qed.

Lemma not_processing (s : AppState) :
  isProcessing s = false -> sessionState s <> Some Processing.
Proof.
  intros H E. apply sessionState_flags in E as (_ & E & _). congruence.
Qed.

(** C10 (as amended).  A generation request starts by setting the
    processing flag and is then in flight.  Whatever happens before a
    generation request settles (clicks, recognition events, timers,
    playback), the flag is still set and the request is still in flight.
    And whatever has happened since the request started, other generation
    requests started and settled included, when this request settles
    (options delivered, failure reported by the backend, transport or
    decoding error) the flag is cleared and the session is not in the
    Processing state. *)
Theorem processing_flag_spans_request
    (w : World) (rest : list Task) (history : list ConversationEntry)
    (language txt : jsstring) (start : Z) :
  let w0 :=
    commit w rest (generateResponses history language txt start (app w)) in
  let request :=
    GenerateFetch {| patronText := txt; req_history := history;
                     req_language := language |} start in
  isProcessing (app w0) = true /\
  In request (pending w0) /\
  (forall es w1,
      forallb notGenerateSettled es = true ->
      run w0 es = Some w1 ->
      isProcessing (app w1) = true /\ In request (pending w1)) /\
  (forall es w1 i out now,
      run w0 es = Some w1 ->
      nth_error (pending w1) i = Some request ->
      exists w2,
        step w1 (GenerateSettled i out now) = Some w2 /\
        isProcessing (app w2) = false /\
        sessionState (app w2) <> Some Processing).
Proof.
  intros w0 request.
  assert (Hin : In request (pending w0))
    by (cbn; apply in_or_app; right; now left).
  split; [reflexivity|]. split; [exact Hin|]. split.
  - intros es w1 Hn Hr.
    destruct (run_keeps_request es _ _ Hn Hr) as (P & _ & I).
    split; [apply P; reflexivity|apply I, Hin].
  - intros es w1 i out now _ Hi.
    eexists. cbn [step]. rewrite Hi. split; [reflexivity|].
    cbn [commit app fst patronText].
    destruct (generateResponses_resume_flag txt start out now (app w1))
      as (F & _). cbn zeta in F.
    split; [exact F|now apply not_processing].
Qed.

Lemma processing_flag_spans_request_witness :
  let r := {| continuous := true; interimResults := true;
              lang := lit "en-US"; onstart_language := lit "en-US" |} in
  let w0 := commit initialWorld []
              (generateResponses [] (lit "en-US") (lit "More tea please")
                 1000 initialState) in
  let meanwhile :=
    [MicClick true false; RecognitionOnStart r;
     RecognitionOnResult
       {| resultIndex := 0;
          results := [{| res_transcript := lit "And sugar";
                         isFinal := true |}] |};
     MicClick true false; TimerFired 1 3000;
     GenerateSettled 1 FetchThrows 3100] in
  exists w1 w2,
    run w0 meanwhile = Some w1 /\
    step w1 (GenerateSettled 0 FetchThrows 3500) = Some w2 /\
    isProcessing (app w2) = false.
Proof.
  intros r w0 meanwhile.
  assert (R : exists w1, run w0 meanwhile = Some w1)
    by (eexists; vm_compute; reflexivity).
  destruct R as [w1 R].
  destruct (processing_flag_spans_request initialWorld [] []
              (lit "en-US") (lit "More tea please") 1000)
    as (_ & _ & _ & S).
  destruct (S meanwhile w1 0%nat FetchThrows 3500%Z R) as (w2 & S2 & F & _).
  { vm_compute in R. injection R as <-. reflexivity. }
  exists w1, w2. split; [exact R|]. split; assumption.
Defined.

(** C10 as stated does not hold: the flag is one boolean for all requests,
    and the mic button is not blocked while a request is in flight.  A
    second recording made during the first request issues a second
    request; when the first one settles the flag is cleared although the
    second is still in flight. *)
Lemma overlapping_request_outlives_flag :
  let r := {| continuous := true; interimResults := true;
              lang := lit "en-US"; onstart_language := lit "en-US" |} in
  let heard (t : string) :=
    RecognitionOnResult
      {| resultIndex := 0;
         results := [{| res_transcript := lit t; isFinal := true |}] |} in
  let reply :=
    FetchData
      (JObj [(lit "success", JBool true);
             (lit "options",
              JArr [optionVal {| tone := lit "polite";
                                 response := lit "Right away." |}]);
             (lit "fallback", JBool false)]) in
  exists w',
    run initialWorld
        [MicClick true false; RecognitionOnStart r;
         heard "More tea please"%string;
         MicClick true false; TimerFired 0 1000;
         MicClick true false; RecognitionOnStart r;
         heard "And sugar"%string;
         MicClick true false; TimerFired 1 3000;
         GenerateSettled 0 reply 3500] = Some w' /\
    pending w' =
      [GenerateFetch {| patronText := lit "And sugar"; req_history := [];
                        req_language := lit "en-US" |} 3000] /\
    isProcessing (app w') = false.
Proof.
  intros r heard reply.
  eexists. split; [vm_compute; reflexivity|].
  split; reflexivity.
Qed.

(** C1 (as amended).  A generation request starts with no option on
    display.  If it settles with a transport or decoding error, a null
    payload, or a falsy [success] field, then it adds no entry to the
    conversation log and exposes no option (the options state is left as
    it was), the processing flag is cleared and the status is "Connection
    error" or "Error generating responses" (red); a session that was
    Processing is Idle, with no option on display.  The [options] field
    of the payload takes no part in the decision: for every object whose
    [success] field is truthy, whatever its [options] field holds, the
    field is stored as it is, the patron's turn is appended to the log,
    the status is a success one (orange when [fallback] is truthy, green
    otherwise) and never an error, the processing flag is cleared, and a
    list whose elements can all be shown is on display for selection. *)
Theorem failed_generation_leaves_no_trace :
  (forall history language txt start s,
      renderedOptions
        (fst (generateResponses history language txt start s)) = []) /\
  (forall w i req start out now,
      nth_error (pending w) i = Some (GenerateFetch req start) ->
      generationFails out = true ->
      exists w',
        step w (GenerateSettled i out now) = Some w' /\
        conversationHistory (app w') = conversationHistory (app w) /\
        responseOptions (app w') = responseOptions (app w) /\
        isProcessing (app w') = false /\
        errorStatus (status (app w')) /\
        calls w' = calls w /\
        pending w' = remove_nth i (pending w) /\
        (sessionState (app w) = Some Processing ->
         renderedOptions (app w') = [] /\
         sessionState (app w') = Some Idle)) /\
  (forall w i req start fields now,
      nth_error (pending w) i = Some (GenerateFetch req start) ->
      truthy (lookup (lit "success") fields) = true ->
      exists w',
        step w (GenerateSettled i (FetchData (JObj fields)) now) = Some w' /\
        responseOptions (app w') = lookup (lit "options") fields /\
        conversationHistory (app w') =
          conversationHistory (app w) ++
          [{| role := lit "Patron"; text := patronText req |}] /\
        isProcessing (app w') = false /\
        ~ errorStatus (status (app w')) /\
        color (status (app w')) =
          (if truthy (lookup (lit "fallback") fields)
           then lit "orange" else lit "green") /\
        (forall l,
            lookup (lit "options") fields = JArr l ->
            forallb optionShown l = true ->
            renderedOptions (app w') = l)).
Proof.
  split; [reflexivity|]. split.
  - intros w i req start out now Hi Hf.
    eexists. cbn [step]. rewrite Hi. split; [reflexivity|].
    cbn [commit app pending calls fst snd suspended flat_map].
    rewrite !app_nil_r.
    destruct (generateResponses_resume_flag (patronText req) start out now
                (app w)) as (F & Fr & Fs).
    destruct (generateResponses_resume_failure (patronText req) start out
                now (app w) Hf) as (Fh & Fo & Fe).
    cbn zeta in *.
    do 6 (split; [trivial|]).
    intros Hst.
    assert (R : render (generateResponses_resume (patronText req) start out
                          now (app w)) = Some []).
    { rewrite (render_options _ _ Fo).
      apply (sessionState_render _ _ Hst). discriminate. }
    apply sessionState_flags in Hst as (Hrec & _ & Hsp & _).
    split; [unfold renderedOptions; now rewrite R|].
    apply sessionState_idle; congruence.
  - intros w i req start fields now Hi Hs.
    eexists. cbn [step]. rewrite Hi. split; [reflexivity|].
    cbn [commit app fst patronText].
    unfold generateResponses_resume. cbn [get]. rewrite Hs.
    split; [reflexivity|]. split; [reflexivity|]. split; [reflexivity|].
    split.
    { unfold errorStatus.
      destruct (truthy (lookup (lit "fallback") fields));
        intros [H|H]; discriminate H. }
    split; [now destruct (truthy (lookup (lit "fallback") fields))|].
    intros l Hl Hshown. unfold renderedOptions.
    erewrite render_shown; [reflexivity|exact Hl|exact Hshown].
Qed.

Lemma failed_generation_leaves_no_trace_witness :
  let w0 := commit initialWorld []
              (generateResponses [] (lit "en-US") (lit "More tea please")
                 1000 initialState) in
  let refused := FetchData (JObj [(lit "success", JBool false)]) in
  let nothing := JObj [(lit "success", JBool true);
                       (lit "options", JNull)] in
  (exists w2,
      step w0 (GenerateSettled 0 refused 1012) = Some w2 /\
      conversationHistory (app w2) = [] /\
      renderedOptions (app w2) = [] /\
      sessionState (app w2) = Some Idle /\
      status (app w2) =
        {| message := lit "Error generating responses";
           color := lit "red" |}) /\
  (exists w2,
      step w0 (GenerateSettled 0 (FetchData nothing) 1012) = Some w2 /\
      responseOptions (app w2) = JNull /\
      conversationHistory (app w2) =
        [{| role := lit "Patron"; text := lit "More tea please" |}] /\
      color (status (app w2)) = lit "green" /\
      render (app w2) = None).
Proof.
  intros w0 refused nothing.
  destruct failed_generation_leaves_no_trace as (_ & F & A).
  split.
  - destruct (F w0 0%nat
                {| patronText := lit "More tea please"; req_history := [];
                   req_language := lit "en-US" |} 1000%Z refused 1012%Z
                eq_refl eq_refl)
      as (w2 & S & H & _ & _ & _ & _ & _ & I).
    destruct (I eq_refl) as [O St].
    exists w2. split; [exact S|]. split; [exact H|]. split; [exact O|].
    split; [exact St|].
    vm_compute in S. injection S as <-. reflexivity.
  - destruct (A w0 0%nat
                {| patronText := lit "More tea please"; req_history := [];
                   req_language := lit "en-US" |} 1000%Z
                [(lit "success", JBool true); (lit "options", JNull)]
                1012%Z eq_refl eq_refl)
      as (w2 & S & O & H & _ & _ & C & _).
    exists w2. split; [exact S|]. split; [exact O|]. split; [exact H|].
    split; [exact C|].
    unfold render. now rewrite O.
Defined.

(** C1 as stated does not hold: a payload that reports success with a
    malformed options list (its one option has a tone and no response) is
    taken as a success.  From the initial state, one recording of "More
    tea please" and such a reply leave the patron's turn in the log, a
    success status, and the malformed option on display for selection:
    the session is AwaitingSelection, not Idle. *)
Lemma malformed_options_taken_as_success :
  let r := {| continuous := true; interimResults := true;
              lang := lit "en-US"; onstart_language := lit "en-US" |} in
  let toneOnly := JObj [(lit "tone", JStr (lit "polite"))] in
  let data := JObj [(lit "success", JBool true);
                    (lit "options", JArr [toneOnly]);
                    (lit "fallback", JBool false)] in
  hasOptionsList data = false /\
  exists w',
    run initialWorld
        [MicClick true false;
         RecognitionOnStart r;
         RecognitionOnResult
           {| resultIndex := 0;
              results := [{| res_transcript := lit "More tea please";
                             isFinal := true |}] |};
         MicClick true false;
         TimerFired 0 1000;
         GenerateSettled 0 (FetchData data) 1012] = Some w' /\
    conversationHistory (app w') =
      [{| role := lit "Patron"; text := lit "More tea please" |}] /\
    conversationHistory (app w') <> conversationHistory initialState /\
    status (app w') =
      {| message := [10003]%N ++ lit " AI (12ms)"; color := lit "green" |} /\
    ~ errorStatus (status (app w')) /\
    renderedOptions (app w') = [toneOnly] /\
    sessionState (app w') = Some AwaitingSelection.
Proof.
  intros r toneOnly data. split; [reflexivity|].
  eexists. split; [vm_compute; reflexivity|].
  vm_compute. repeat split; try discriminate.
  intros [H|H]; discriminate H.
Qed.

(* ================================================================== *)
(** ** Selecting a reply and playing it *)
(* ================================================================== *)

(** With the speaking flag up, nothing suspended and no option on display,
    every event leaves things so, and calls nothing. *)
Lemma step_frozen (w w' : World) (e : Event) :
  isSpeaking (app w) = true ->
  pending w = [] ->
  renderedOptions (app w) = [] ->
  step w e = Some w' ->
  isSpeaking (app w') = true /\ pending w' = [] /\
  renderedOptions (app w') = [] /\ calls w' = calls w.
Proof.
  intros Hs Hp Ho Hstep.
  destruct e; cbn [step] in Hstep;
    try (rewrite Hp in Hstep; destruct i; discriminate Hstep).
  - unfold handleMicClick in Hstep. rewrite Hs in Hstep.
    injection Hstep as <-. rewrite commit_pure. cbn. auto.
  - injection Hstep as <-. rewrite commit_pure. cbn. auto.
  - injection Hstep as <-. rewrite commit_pure.
    destruct (onresult_frame e (app w)) as (_ & F2 & _ & F4 & _).
    cbn [app pending calls].
    rewrite F2, (renderedOptions_options _ _ F4). auto.
  - injection Hstep as <-. rewrite commit_pure.
    destruct (onerror_frame error (app w)) as ((_ & F2 & _ & F4 & _) & _).
    cbn [app pending calls].
    rewrite F2, (renderedOptions_options _ _ F4). auto.
  - rewrite Ho in Hstep. destruct i; discriminate Hstep.
  - destruct (conversationHistory (app w)); [discriminate|].
    injection Hstep as <-. rewrite commit_pure. cbn. auto.
  - injection Hstep as <-. rewrite commit_pure. cbn. auto.
Qed.



(** Whatever the speech request returned, the medium that [speakText]
    plays, when it plays one, has the promise's [resolve] as its handler
    for both events. *)
Lemma speakText_resume_handlers
    (req : TtsRequest) (out : FetchOutcome) (voices : list Voice)
    (m : Media) (ev : MediaEvent) :
  speakText_resume req out voices = Some m ->
  handlerOf m ev = Some PromiseResolve.
Proof.
  unfold speakText_resume. split_cases; intros E; try discriminate E;
    injection E as <-; destruct ev; reflexivity.
Qed.

(** [speakText] plays a medium exactly when the audio it may have been
    given converts to a string. *)
Lemma speakText_resume_converts
    (req : TtsRequest) (out : FetchOutcome) (voices : list Voice) :
  audioConverts out = true ->
  exists m, speakText_resume req out voices = Some m.
Proof.
  unfold audioConverts, carriesAudio, speakText_resume.
  destruct out as [|data]; [eauto|].
  destruct data as [| | b | t | s | l | fields]; cbn [get];
    try (cbn [truthy andb]; eauto; fail).
  destruct (truthy _ && truthy _); [|eauto].
  destruct (toString (lookup (lit "audio") fields));
    [eauto|intros H; discriminate H].
Qed.

Lemma speakText_resume_rejects
    (req : TtsRequest) (out : FetchOutcome) (voices : list Voice) :
  audioConverts out = false ->
  speakText_resume req out voices = None.
Proof.
  unfold audioConverts, carriesAudio, speakText_resume.
  destruct out as [|data]; [discriminate|].
  destruct data as [| | b | t | s | l | fields]; try discriminate. cbn [get].
  destruct (truthy _ && truthy _); [|discriminate].
  destruct (toString (lookup (lit "audio") fields));
    [intros H; discriminate H|reflexivity].
Qed.

Lemma speakText_resume_local
    (req : TtsRequest) (out : FetchOutcome) (voices : list Voice) :
  carriesAudio out = false ->
  speakText_resume req out voices =
  Some (LocalSpeech (fallbackSpeak (tts_language req) voices (tts_text req))).
Proof.
  unfold carriesAudio, speakText_resume.
  destruct out as [|data]; [reflexivity|].
  destruct data; try reflexivity.
  cbn [get]. now intros ->.
Qed.

Lemma speakText_resume_network
    (req : TtsRequest) (fields : list (jsstring * JsVal)) (a : jsstring)
    (voices : list Voice) :
  carriesAudio (FetchData (JObj fields)) = true ->
  toString (lookup (lit "audio") fields) = Some a ->
  speakText_resume req (FetchData (JObj fields)) voices =
  Some (NetworkAudio {| audio_src := lit "data:audio/mp3;base64," ++ a;
                        onended := Some PromiseResolve;
                        audio_onerror := Some PromiseResolve |}).
Proof.
  unfold carriesAudio, speakText_resume. cbn [get].
  now intros -> ->.
Qed.

(** The three steps from the click on a well-formed option to the end of
    its playback, on the medium [m] that [speakText] plays. *)
Lemma select_pipeline
    (w : World) (i : nat) (o : ResponseOption) (out : FetchOutcome)
    (voices : list Voice) (m : Media) (ev : MediaEvent) :
  nth_error (renderedOptions (app w)) i = Some (optionVal o) ->
  speakText_resume {| tts_text := response o;
                      tts_language := selectedLanguage (app w) |}
                   out voices = Some m ->
  let k := List.length (pending w) in
  let s1 := setResponseOptions (JArr []) (setIsSpeaking true (app w)) in
  let req := {| tts_text := response o;
                tts_language := selectedLanguage (app w) |} in
  let c1 := calls w ++ [Suspend (TtsFetch req (optionVal o))] in
  let c2 := c1 ++ [Suspend (Playback m (optionVal o))] in
  let w1 := {| app := s1; pending := pending w ++ [TtsFetch req (optionVal o)];
               calls := c1 |} in
  let w2 := {| app := s1; pending := pending w ++ [Playback m (optionVal o)];
               calls := c2 |} in
  let w3 := {| app := selectResponse_resume (optionVal o) s1;
               pending := pending w; calls := c2 |} in
  step w (OptionClick i) = Some w1 /\
  step w1 (TtsSettled k out voices) = Some w2 /\
  step w2 (MediaFired k ev) = Some w3.
Proof.
  intros Hi Hm k s1 req c1 c2 w1 w2 w3. split; [|split].
  - cbn [step]. rewrite Hi. reflexivity.
  - cbn [step w1 pending]. subst k.
    rewrite nth_error_snoc, remove_nth_snoc. fold req in Hm. rewrite Hm.
    reflexivity.
  - cbn [step w2 pending]. subst k.
    rewrite nth_error_snoc, remove_nth_snoc.
    rewrite (speakText_resume_handlers _ _ _ _ ev Hm).
    unfold commit. cbn [fst snd suspended flat_map app calls].
    now rewrite !app_nil_r.
Qed.







(* ================================================================== *)
(** ** A whole exchange *)
(* ================================================================== *)

(** English, "More tea please" finalized, four options returned, the
    polite one chosen, network audio played to its end: the log holds the
    patron's turn and the persona's, in that order, and the session is
    Idle with nothing in flight. *)
Example tea_exchange :
  let r := {| continuous := true; interimResults := true;
              lang := lit "en-US"; onstart_language := lit "en-US" |} in
  let opt (t a : string) := optionVal {| tone := lit t; response := lit a |} in
  let reply :=
    FetchData
      (JObj [(lit "success", JBool true);
             (lit "options",
              JArr [opt "polite"%string
                        "Of course, bringing more tea right away."%string;
                    opt "warm"%string "Happily! One moment."%string;
                    opt "brief"%string "Sure."%string;
                    opt "firm"%string "Please wait a minute."%string]);
             (lit "fallback", JBool false)]) in
  let audio :=
    FetchData (JObj [(lit "success", JBool true);
                     (lit "audio", JStr (lit "SUQz"))]) in
  exists w',
    run initialWorld
        [MicClick true false;
         RecognitionOnStart r;
         RecognitionOnResult
           {| resultIndex := 0;
              results := [{| res_transcript := lit "More tea please";
                             isFinal := true |}] |};
         MicClick true false;
         TimerFired 0 1000;
         GenerateSettled 0 reply 1850;
         OptionClick 0;
         TtsSettled 0 audio [];
         MediaFired 0 Ended] = Some w' /\
    conversationHistory (app w') =
      [{| role := lit "Patron"; text := lit "More tea please" |};
       {| role := lit "Pooja (polite)";
          text := lit "Of course, bringing more tea right away." |}] /\
    sessionState (app w') = Some Idle /\
    pending w' = [].
Proof.
  intros r opt reply audio.
  eexists. split; [vm_compute; reflexivity|].
  repeat split.
Qed.

(* ================================================================== *)
(** ** The displayed transcript *)
(* ================================================================== *)

Lemma trimStart_fixed (t : jsstring) :
  (forall c r, t = c :: r -> Js.isWhiteSpace c = false) ->
  Js.trimStart t = t.
Proof.
  destruct t as [|c r]; intros H; [reflexivity|].
  simpl. now rewrite (H c r eq_refl).
Qed.

Lemma trimEnd_fixed (t : jsstring) :
  (forall r c, t = r ++ [c] -> Js.isWhiteSpace c = false) ->
  Js.trimEnd t = t.
Proof.
  intros H. unfold Js.trimEnd.
  destruct (rev t) as [|c l] eqn:E.
  - apply (f_equal (@rev N)) in E. rewrite rev_involutive in E. now subst.
  - assert (Et : t = rev l ++ [c]).
    { apply (f_equal (@rev N)) in E. now rewrite rev_involutive in E. }
    rewrite trimStart_fixed.
    + now rewrite Et.
    + intros c' r' Ec. injection Ec as <- _. exact (H _ _ Et).
Qed.

Lemma trimEnd_space (t : jsstring) :
  Js.trimEnd (t ++ lit " ") = Js.trimEnd t.
Proof. unfold Js.trimEnd. now rewrite rev_app_distr. Qed.

(** A text with no white space around it, followed by one space, trims
    back to itself. *)
Lemma trim_trailing_space (t : jsstring) :
  noSurroundingSpace t -> Js.trim (t ++ lit " ") = t.
Proof.
  intros [Hh Hl]. unfold Js.trim.
  destruct t as [|c r]; [reflexivity|].
  rewrite trimStart_fixed.
  - rewrite trimEnd_space. now apply trimEnd_fixed.
  - intros c' r' E. simpl in E. injection E as <- _. exact (Hh c r eq_refl).
Qed.

Lemma trim_noSurroundingSpace (s : jsstring) :
  noSurroundingSpace (Js.trim s).
Proof.
  destruct (JsFacts.trim_trimmedOf s) as (pre & post & _ & _ & _ & Hh & Hl).
  split; assumption.
Qed.

Lemma onresult_loop_all_final (rs : list SpeechResult) :
  forall finals interim,
    forallb isFinal rs = true ->
    snd (onresult_loop rs finals interim) = interim.
Proof.
  induction rs as [|r rest IH]; intros finals interim H; [reflexivity|].
  simpl in H. apply andb_true_iff in H as [Hr H].
  simpl. rewrite Hr. now apply IH.
Qed.

Lemma onresult_loop_none_final (rs : list SpeechResult) :
  forall finals interim,
    forallb (fun r => negb (isFinal r)) rs = true ->
    fst (onresult_loop rs finals interim) = finals.
Proof.
  induction rs as [|r rest IH]; intros finals interim H; [reflexivity|].
  simpl in H. apply andb_true_iff in H as [Hr H].
  apply negb_true_iff in Hr. simpl. rewrite Hr. now apply IH.
Qed.

(** X1.  [recognition.onresult]: the transcript on display never has white
    space at either end; results that are all interim leave the finalized
    segments as they were; and after an event whose results are all final,
    the transcript on display is exactly the text that a stop would hand
    to the generation request, so that the timer callback run on that
    state, when the text is not empty, requests precisely what is shown. *)
Theorem displayed_transcript_is_what_is_sent
    (e : ResultEvent) (s : AppState)
    (history : list ConversationEntry) (language : jsstring) (now : Z) :
  let s' := onresult e s in
  let heard := skipn (resultIndex e) (results e) in
  noSurroundingSpace (transcript s') /\
  (forallb (fun r => negb (isFinal r)) heard = true ->
   finalTranscriptRef s' = finalTranscriptRef s) /\
  (forallb isFinal heard = true ->
   transcript s' = Js.trim (Js.join (lit " ") (finalTranscriptRef s')) /\
   (transcript s' <> [] ->
    snd (stopRecording_timeout history language now s') =
    [Suspend (GenerateFetch {| patronText := transcript s';
                               req_history := history;
                               req_language := language |} now)])).
Proof.
  cbn zeta. unfold onresult.
  pose proof (onresult_loop_all_final (skipn (resultIndex e) (results e))
                (finalTranscriptRef s) []) as HA.
  pose proof (onresult_loop_none_final (skipn (resultIndex e) (results e))
                (finalTranscriptRef s) []) as HN.
  destruct (onresult_loop _ _ _) as [finals interim].
  cbn [fst snd] in HA, HN.
  cbn [transcript finalTranscriptRef setTranscript setFinalTranscriptRef].
  split; [apply trim_noSurroundingSpace|]. split; [exact HN|].
  intros Hf. rewrite (HA Hf), app_nil_r.
  assert (E : Js.trim (Js.trim (Js.join (lit " ") finals) ++ lit " ")
              = Js.trim (Js.join (lit " ") finals))
    by (apply trim_trailing_space, trim_noSurroundingSpace).
  rewrite E. split; [reflexivity|].
  intros Hne. unfold stopRecording_timeout.
  cbn [finalTranscriptRef setTranscript setFinalTranscriptRef].
  destruct (Js.trim (Js.join (lit " ") finals)) as [|c t];
    [congruence|reflexivity].
Qed.

Lemma displayed_transcript_is_what_is_sent_witness :
  let e := {| resultIndex := 1;
              results := [{| res_transcript := lit "ignored"; isFinal := true |};
                          {| res_transcript := lit " More tea";
                             isFinal := true |};
                          {| res_transcript := lit "please ";
                             isFinal := true |}] |} in
  let s' := onresult e initialState in
  let guess := {| resultIndex := 0;
                  results := [{| res_transcript := lit "and";
                                 isFinal := false |}] |} in
  transcript s' = lit "More tea please" /\
  snd (stopRecording_timeout [] (lit "en-US") 1000 s') =
  [Suspend (GenerateFetch {| patronText := lit "More tea please";
                             req_history := [];
                             req_language := lit "en-US" |} 1000)] /\
  finalTranscriptRef (onresult guess s') = finalTranscriptRef s'.
Proof.
  intros e s' guess.
  destruct (displayed_transcript_is_what_is_sent e initialState []
              (lit "en-US") 1000) as (_ & _ & H).
  destruct (H eq_refl) as [Ht Hs].
  split; [reflexivity|]. split; [apply Hs; discriminate|].
  apply (displayed_transcript_is_what_is_sent guess s' [] (lit "en-US") 1000).
  reflexivity.
Defined.

(* ================================================================== *)
(** ** A successful generation *)
(* ================================================================== *)

(** The difference of two clock readings is exact when it is below 2^53,
    and is in any case far below 10^21, so that it is printed in plain
    decimal digits. *)
Lemma minus_exact (a b : Z) :
  (Z.abs (a - b) < 2 ^ 53)%Z -> Js.minus a b = (a - b)%Z.
Proof.
  intros H. unfold Js.minus. cbv zeta.
  destruct (Z.ltb_spec (Z.abs (a - b)) (2 ^ 53)) as [_|L]; [reflexivity|].
  exfalso. apply (Z.lt_irrefl (2 ^ 53)). eapply Z.le_lt_trans; eassumption.
Qed.

Lemma minus_clock (a b : Z) :
  clockReading a -> clockReading b ->
  (Z.abs (Js.minus a b) < 10 ^ 21)%Z.
Proof.
  unfold clockReading, Js.minus. intros Ha Hb. cbv zeta.
  assert (E : (10 ^ 21 = 1000000000000000000000)%Z) by reflexivity.
  rewrite E. clear E.
  destruct (Z.abs (a - b) <? 2 ^ 53)%Z; [lia|].
  destruct (Z.even (a - b)); [lia|].
  pose proof (Z.div_mod (a - b) 2 ltac:(discriminate)) as D.
  pose proof (Z.mod_pos_bound (a - b) 2 ltac:(reflexivity)) as M.
  destruct (Z.even ((a - b) / 2)); lia.
Qed.

Lemma sessionState_shown (s : AppState) (l : list JsVal) :
  render s = Some l ->
  isRecording s = false -> isProcessing s = false -> isSpeaking s = false ->
  sessionState s =
  Some (match l with [] => Idle | _ :: _ => AwaitingSelection end).
Proof. unfold sessionState. intros -> -> -> ->. now destruct l. Qed.

(** The success branch of [generateResponses]. *)
Lemma generateResponses_resume_success
    (txt : jsstring) (start : Z) (fields : list (jsstring * JsVal))
    (now : Z) (s : AppState) :
  truthy (lookup (lit "success") fields) = true ->
  let fallback := truthy (lookup (lit "fallback") fields) in
  let s' := generateResponses_resume txt start (FetchData (JObj fields))
              now s in
  responseOptions s' = lookup (lit "options") fields /\
  conversationHistory s' =
    conversationHistory s ++ [{| role := lit "Patron"; text := txt |}] /\
  isProcessing s' = false /\
  status s' =
    {| message :=
         [10003]%N
           ++ (if fallback then lit " Fallback (" else lit " AI (")
           ++ Js.ofZ (Js.minus now start) ++ lit "ms)";
       color := if fallback then lit "orange" else lit "green" |} /\
  isRecording s' = isRecording s /\
  isSpeaking s' = isSpeaking s.
Proof.
  intros Hs fallback. unfold generateResponses_resume. cbn [get].
  rewrite Hs. fold fallback.
  repeat split. now destruct fallback.
Qed.

(** X2.  [generateResponses], success branch.  When the request settles
    with an object whose [success] is truthy, the [options] field is
    stored as it is, the patron's turn is appended at the end of the log
    with exactly the text that was sent, the processing flag is cleared,
    and the status tells the source and the elapsed time: "Fallback (N
    ms)" in orange when [fallback] is truthy, "AI (N ms)" in green
    otherwise, N being the difference of the two clock readings, printed
    in plain decimal digits.  What the page then shows depends on the
    options.  A list whose elements can all be shown gets one button per
    element, and a Processing session becomes AwaitingSelection when the
    list is not empty and Idle when it is.  When the field is absent or
    [null], or is a list with an element that cannot be shown, the render
    throws: there is no button and no session state. *)
Theorem successful_generation
    (w : World) (i : nat) (req : GenerateRequest) (start now : Z)
    (fields : list (jsstring * JsVal)) :
  nth_error (pending w) i = Some (GenerateFetch req start) ->
  truthy (lookup (lit "success") fields) = true ->
  clockReading start ->
  clockReading now ->
  let fallback := truthy (lookup (lit "fallback") fields) in
  let options := lookup (lit "options") fields in
  exists w',
    step w (GenerateSettled i (FetchData (JObj fields)) now) = Some w' /\
    responseOptions (app w') = options /\
    conversationHistory (app w') =
      conversationHistory (app w) ++
      [{| role := lit "Patron"; text := patronText req |}] /\
    isProcessing (app w') = false /\
    status (app w') =
      {| message :=
           [10003]%N
             ++ (if fallback then lit " Fallback (" else lit " AI (")
             ++ Js.ofZ (Js.minus now start) ++ lit "ms)";
         color := if fallback then lit "orange" else lit "green" |} /\
    (Z.abs (Js.minus now start) < 10 ^ 21)%Z /\
    ((Z.abs (now - start) < 2 ^ 53)%Z ->
     Js.minus now start = (now - start)%Z) /\
    pending w' = remove_nth i (pending w) /\
    calls w' = calls w /\
    (forall l,
        options = JArr l -> forallb optionShown l = true ->
        renderedOptions (app w') = l /\
        (sessionState (app w) = Some Processing ->
         sessionState (app w') =
           Some (match l with [] => Idle | _ :: _ => AwaitingSelection end)))
    /\
    (options = JUndefined \/ options = JNull \/
     (exists l, options = JArr l /\ forallb optionShown l = false) ->
     render (app w') = None /\
     renderedOptions (app w') = [] /\
     sessionState (app w') = None).
Proof.
  intros Hi Hs Hstart Hnow fallback options.
  destruct (generateResponses_resume_success (patronText req) start fields
              now (app w) Hs) as (AO & AH & AP & AS & AR & AK).
  cbn zeta in AO, AH, AP, AS, AR, AK. fold fallback options in AO, AS.
  eexists. cbn [step]. rewrite Hi. split; [reflexivity|].
  unfold commit.
  cbn [app pending calls fst snd suspended flat_map].
  rewrite !app_nil_r.
  set (A := generateResponses_resume (patronText req) start
              (FetchData (JObj fields)) now (app w)) in *.
  clearbody A.
  split; [exact AO|]. split; [exact AH|]. split; [exact AP|].
  split; [exact AS|].
  split; [now apply minus_clock|].
  split; [apply minus_exact|].
  split; [reflexivity|]. split; [reflexivity|].
  split.
  - intros l Hl Hshown.
    assert (R : render A = Some l)
      by (apply render_shown; [now rewrite AO|exact Hshown]).
    split; [unfold renderedOptions; now rewrite R|].
    intros Hst. apply sessionState_flags in Hst as (Hr & _ & Hsp & _).
    apply sessionState_shown; congruence.
  - intros H.
    assert (R : render A = None).
    { unfold render. rewrite AO.
      destruct H as [-> | [-> | (l & -> & Hl)]]; try reflexivity.
      now rewrite Hl. }
    split; [exact R|].
    unfold renderedOptions, sessionState. now rewrite R.
Qed.

Lemma successful_generation_witness :
  let w0 := commit initialWorld []
              (generateResponses [] (lit "en-US") (lit "More tea please")
                 1000 initialState) in
  let canned :=
    [(lit "success", JBool true);
     (lit "options",
      JArr [optionVal {| tone := lit "polite"; response := lit "Sure." |}]);
     (lit "fallback", JBool true)] in
  exists w',
    step w0 (GenerateSettled 0 (FetchData (JObj canned)) 1040) = Some w' /\
    sessionState (app w') = Some AwaitingSelection /\
    status (app w') =
      {| message := [10003]%N ++ lit " Fallback (40ms)";
         color := lit "orange" |} /\
    conversationHistory (app w') =
      [{| role := lit "Patron"; text := lit "More tea please" |}].
Proof.
  intros w0 canned.
  destruct (successful_generation w0 0
              {| patronText := lit "More tea please"; req_history := [];
                 req_language := lit "en-US" |} 1000 1040 canned
              eq_refl eq_refl)
    as (w' & S & _ & H & _ & St & _ & _ & _ & _ & A & _).
  { unfold clockReading. cbn. lia. }
  { unfold clockReading. cbn. lia. }
  exists w'. split; [exact S|].
  split; [exact (proj2 (A _ eq_refl eq_refl) eq_refl)|].
  split; [exact St|exact H].
Defined.

(* ================================================================== *)
(** ** The conversation log *)
(* ================================================================== *)

Lemma handleMicClick_keeps (supported startThrows : bool) (s : AppState) :
  let s' := fst (handleMicClick supported startThrows s) in
  conversationHistory s' = conversationHistory s /\
  selectedLanguage s' = selectedLanguage s /\
  isSpeaking s' = isSpeaking s /\
  finalTranscriptRef s' = finalTranscriptRef s.
Proof. mic_paths s supported startThrows; repeat split; congruence. Qed.

Lemma generateResponses_resume_log
    (txt : jsstring) (start : Z) (out : FetchOutcome) (now : Z)
    (s : AppState) :
  let s' := generateResponses_resume txt start out now s in
  conversationHistory s' = conversationHistory s \/
  conversationHistory s' =
    conversationHistory s ++ [{| role := lit "Patron"; text := txt |}].
Proof.
  unfold generateResponses_resume, generateResponses_catch.
  split_cases; cbn; auto.
Qed.

Lemma selectResponse_resume_log (o : JsVal) (s : AppState) :
  let s' := selectResponse_resume o s in
  conversationHistory s' = conversationHistory s \/
  exists t r,
    conversationHistory s' =
    conversationHistory s ++ [{| role := lit "Pooja (" ++ t ++ lit ")";
                                 text := r |}].
Proof.
  unfold selectResponse_resume. split_cases; cbn; eauto.
Qed.

(** One event other than the clear button adds at most one entry, at the
    end, with one of the two kinds of role. *)
Lemma step_log (w w' : World) (e : Event) :
  notClearClick e = true ->
  step w e = Some w' ->
  conversationHistory (app w') = conversationHistory (app w) \/
  exists entry,
    conversationHistory (app w') = conversationHistory (app w) ++ [entry] /\
    loggedRole (role entry).
Proof.
  intros Hn Hs. destruct e; try discriminate Hn; cbn [step] in Hs.
  - injection Hs as <-. left.
    apply (handleMicClick_keeps supported startThrows (app w)).
  - injection Hs as <-. now left.
  - injection Hs as <-. left. apply (onresult_frame e (app w)).
  - injection Hs as <-. left. apply (onerror_frame error (app w)).
  - destruct (nth_error (pending w) i) as [[ms h l| | |]|];
      try discriminate Hs.
    injection Hs as <-. left. unfold stopRecording_timeout, generateResponses.
    destruct (truthy _); reflexivity.
  - destruct (nth_error (pending w) i) as [[|req start| |]|];
      try discriminate Hs.
    injection Hs as <-. cbn [commit app fst].
    destruct (generateResponses_resume_log (patronText req) start out now
                (app w)) as [H|H]; [now left|right].
    eexists. split; [exact H|]. now left.
  - destruct (nth_error (renderedOptions (app w)) i); try discriminate Hs.
    injection Hs as <-. left. unfold selectResponse, speakText.
    split_cases; reflexivity.
  - destruct (nth_error (pending w) i) as [[| |req o|]|];
      try discriminate Hs.
    destruct (speakText_resume req out voices); injection Hs as <-;
      now left.
  - destruct (nth_error (pending w) i) as [[| | |m o]|];
      try discriminate Hs.
    destruct (handlerOf m ev) as [[|]|]; injection Hs as <-;
      [|now left|now left].
    cbn [commit app fst].
    destruct (selectResponse_resume_log o (app w)) as [H|(t & r & H)];
      [now left|right].
    eexists. split; [exact H|]. right. now exists t.
  - injection Hs as <-. now left.
Qed.

(** X3.  The conversation log is append-only: over any run of events in
    which the clear button is not clicked, the log at the start is a
    prefix of the log at the end, and every entry added has the role
    "Patron" or "Pooja (<tone>)".  No handler edits or removes an entry;
    only [clearHistory] shortens the log. *)
Theorem log_is_append_only (es : list Event) :
  forall w w',
    forallb notClearClick es = true ->
    run w es = Some w' ->
    exists added,
      conversationHistory (app w') = conversationHistory (app w) ++ added /\
      Forall (fun entry => loggedRole (role entry)) added.
Proof.
  induction es as [|e es IH]; intros w w' Hn Hr; cbn in Hr.
  - injection Hr as <-. exists []. now rewrite app_nil_r.
  - cbn in Hn. apply andb_true_iff in Hn as [He Hn].
    destruct (step w e) as [w1|] eqn:Es; [|discriminate].
    destruct (IH w1 w' Hn Hr) as (added & E & F).
    destruct (step_log w w1 e He Es) as [H|(entry & H & R)].
    + exists added. now rewrite E, H.
    + exists (entry :: added). rewrite E, H, <- app_assoc.
      split; [reflexivity|now constructor].
Qed.

Lemma log_is_append_only_witness :
  let before := [{| role := lit "Patron"; text := lit "Hello" |}] in
  let w := {| app := setConversationHistory (fun _ => before) initialState;
              pending := [GenerateFetch {| patronText := lit "More tea please";
                                           req_history := before;
                                           req_language := lit "en-US" |} 0];
              calls := [] |} in
  let reply := FetchData (JObj [(lit "success", JNum (lit "1"));
                                (lit "options", JArr [])]) in
  exists w' added,
    run w [MicClick true false; GenerateSettled 0 reply 5] = Some w' /\
    conversationHistory (app w') = before ++ added.
Proof.
  intros before w reply.
  assert (R : exists w',
             run w [MicClick true false; GenerateSettled 0 reply 5] = Some w')
    by (eexists; vm_compute; reflexivity).
  destruct R as [w' R].
  destruct (log_is_append_only
              [MicClick true false; GenerateSettled 0 reply 5] w w' eq_refl R)
    as (added & E & _).
  exists w', added. split; assumption.
Defined.

(* ================================================================== *)
(** ** What a request carries *)
(* ================================================================== *)

(** Results, errors, the clear button and the language selector leave the
    flags, the options, the recognition instance and the suspensions
    alone; the finalized segments grow by those delivered. *)
Lemma run_quiet (es : list Event) :
  forall w w',
    forallb quietEvent es = true ->
    run w es = Some w' ->
    pending w' = pending w /\
    calls w' = calls w /\
    isRecording (app w') = isRecording (app w) /\
    isSpeaking (app w') = isSpeaking (app w) /\
    isProcessing (app w') = isProcessing (app w) /\
    responseOptions (app w') = responseOptions (app w) /\
    recognitionRef (app w') = recognitionRef (app w) /\
    finalTranscriptRef (app w') = finalTranscriptRef (app w) ++ finalSegments es.
Proof.
  induction es as [|e es IH]; intros w w' Hq Hr; cbn in Hr.
  - injection Hr as <-. rewrite app_nil_r. repeat split.
  - cbn in Hq. apply andb_true_iff in Hq as [He Hq].
    destruct (step w e) as [w1|] eqn:Es; [|discriminate].
    destruct (IH w1 w' Hq Hr) as (P & C & R & S & G & O & I & T).
    rewrite P, C, R, S, G, O, I, T. clear IH Hr P C R S G O I T.
    destruct e; try discriminate He; cbn [step] in Es.
    + injection Es as <-. rewrite commit_pure. cbn [app pending calls].
      destruct (onresult_frame e (app w)) as (F1 & F2 & F3 & F4 & _ & _ & F7).
      rewrite onresult_ref. cbn [finalSegments flat_map].
      rewrite app_assoc. repeat split; assumption.
    + injection Es as <-. rewrite commit_pure. cbn [app pending calls].
      destruct (onerror_frame error (app w))
        as ((F1 & F2 & F3 & F4 & _ & _ & F7) & T).
      rewrite T. repeat split; assumption.
    + destruct (conversationHistory (app w)); [discriminate|].
      injection Es as <-. rewrite commit_pure. repeat split.
    + injection Es as <-. rewrite commit_pure. repeat split.
Qed.

(** X4.  [stopRecording] and its timer.  The generation request issued
    when the settle delay ends carries the conversation history and the
    language of the render in which the stop was clicked: clearing the log
    or changing the language during the delay (or any recognition result
    or error) does not change what is sent, while the text is the one
    finalized up to the end of the delay. *)
Theorem request_carries_state_of_stop_click
    (w w' : World) (r : Recognition) (supported startThrows : bool)
    (es : list Event) (now : Z) :
  recognitionRef (app w) = Some r ->
  isRecording (app w) = true ->
  isSpeaking (app w) = false ->
  forallb quietEvent es = true ->
  run w (MicClick supported startThrows
           :: es ++ [TimerFired (List.length (pending w)) now]) = Some w' ->
  let finalText :=
    Js.trim (Js.join (lit " ")
               (finalTranscriptRef (app w) ++ finalSegments es)) in
  finalText <> [] ->
  pending w' =
    pending w ++
    [GenerateFetch {| patronText := finalText;
                      req_history := conversationHistory (app w);
                      req_language := selectedLanguage (app w) |} now].
Proof.
  intros Hr Hrec Hsp Hq Hrun finalText Hne.
  cbn [run] in Hrun.
  assert (S1 : step w (MicClick supported startThrows) =
               Some {| app := setIsRecording false (app w);
                       pending := pending w ++
                         [Timer 500 (conversationHistory (app w))
                                (selectedLanguage (app w))];
                       calls := calls w ++
                         [RecognitionStop r;
                          Suspend (Timer 500 (conversationHistory (app w))
                                         (selectedLanguage (app w)))] |}).
  { cbn [step]. unfold handleMicClick, stopRecording.
    rewrite Hsp, Hrec, Hr. reflexivity. }
  rewrite S1, run_app in Hrun.
  destruct (run _ es) as [w2|] eqn:R2; [|discriminate].
  destruct (run_quiet es _ _ Hq R2) as (P & _ & _ & _ & _ & _ & _ & T).
  cbn [app pending finalTranscriptRef setIsRecording] in P, T.
  cbn [run step] in Hrun. rewrite P, nth_error_snoc, remove_nth_snoc in Hrun.
  injection Hrun as <-. unfold stopRecording_timeout. rewrite T.
  fold finalText. destruct finalText as [|c t]; [congruence|reflexivity].
Qed.

Lemma request_carries_state_of_stop_click_witness :
  let r := {| continuous := true; interimResults := true;
              lang := lit "en-US"; onstart_language := lit "en-US" |} in
  let hello := {| role := lit "Patron"; text := lit "Hello" |} in
  let w := {| app := setFinalTranscriptRef [lit "More tea please"]
                       (setConversationHistory (fun _ => [hello])
                          (setRecognitionRef (Some r)
                             (setIsRecording true initialState)));
              pending := []; calls := [] |} in
  exists w',
    run w [MicClick true false; ClearClick; LanguageChange (lit "hi-IN");
           TimerFired 0 1000] = Some w' /\
    conversationHistory (app w') = [] /\
    selectedLanguage (app w') = lit "hi-IN" /\
    pending w' =
      [GenerateFetch {| patronText := lit "More tea please";
                        req_history := [hello];
                        req_language := lit "en-US" |} 1000].
Proof.
  intros r hello w.
  assert (R : exists w',
             run w [MicClick true false; ClearClick;
                    LanguageChange (lit "hi-IN"); TimerFired 0 1000]
             = Some w') by (eexists; vm_compute; reflexivity).
  destruct R as [w' R]. exists w'. split; [exact R|].
  pose proof (request_carries_state_of_stop_click w w' r true false
                [ClearClick; LanguageChange (lit "hi-IN")] 1000
                eq_refl eq_refl eq_refl eq_refl R) as H.
  cbn zeta in H.
  assert (Hp : pending w' =
               [GenerateFetch {| patronText := lit "More tea please";
                                 req_history := [hello];
                                 req_language := lit "en-US" |} 1000])
    by (rewrite H by (vm_compute; discriminate); vm_compute; reflexivity).
  clear H. vm_compute in R. injection R as <-.
  split; [reflexivity|]. split; [reflexivity|]. exact Hp.
Defined.

Lemma run_languageChange (es : list Event) :
  forall w w',
    forallb languageChange es = true ->
    run w es = Some w' ->
    pending w' = pending w /\
    calls w' = calls w /\
    isSpeaking (app w') = isSpeaking (app w) /\
    status (app w') = status (app w) /\
    conversationHistory (app w') = conversationHistory (app w).
Proof.
  induction es as [|e es IH]; intros w w' Hq Hr; cbn in Hr.
  - injection Hr as <-. repeat split.
  - cbn in Hq. apply andb_true_iff in Hq as [He Hq].
    destruct e; try discriminate He. cbn [step] in Hr.
    rewrite commit_pure in Hr.
    destruct (IH _ w' Hq Hr) as (P & C & S & St & H).
    repeat split; assumption.
Qed.

(** X5.  [speakText] after its request.  A well-formed option is clicked
    and the speech request settles, the language selector possibly being
    used in between.  Whatever the request returned, the settlement shows
    no error: the status is the one before the click, the session is still
    speaking and the log is as it was.  What is then suspended depends on
    the payload alone.  Unless the payload is an object with truthy
    [success] and [audio] (transport error, null or non-object payload,
    failure reported, audio missing), the response text is spoken locally,
    in the locale of the language that was selected when the option was
    clicked.  If it is one and the audio converts to the string [a], the
    reply is played from the data URL built on [a].  If it is one and the
    audio does not convert, the concatenation throws inside the promise:
    nothing is played and nothing is left suspended. *)
Theorem speech_request_never_surfaces_failure
    (w : World) (i : nat) (o : ResponseOption) (es : list Event)
    (out : FetchOutcome) (voices : list Voice) :
  nth_error (renderedOptions (app w)) i = Some (optionVal o) ->
  forallb languageChange es = true ->
  exists w',
    run w (OptionClick i
             :: es ++ [TtsSettled (List.length (pending w)) out voices])
    = Some w' /\
    status (app w') = status (app w) /\
    isSpeaking (app w') = true /\
    conversationHistory (app w') = conversationHistory (app w) /\
    (carriesAudio out = false ->
     pending w' =
       pending w ++
       [Playback
          (LocalSpeech
             (fallbackSpeak (selectedLanguage (app w)) voices (response o)))
          (optionVal o)]) /\
    (forall fields a,
        out = FetchData (JObj fields) -> carriesAudio out = true ->
        toString (lookup (lit "audio") fields) = Some a ->
        pending w' =
          pending w ++
          [Playback
             (NetworkAudio
                {| audio_src := lit "data:audio/mp3;base64," ++ a;
                   onended := Some PromiseResolve;
                   audio_onerror := Some PromiseResolve |})
             (optionVal o)]) /\
    (audioConverts out = false -> pending w' = pending w).
Proof.
  intros Hi Hl.
  set (req := {| tts_text := response o;
                 tts_language := selectedLanguage (app w) |}).
  set (w1 := {| app := setResponseOptions (JArr [])
                         (setIsSpeaking true (app w));
                pending := pending w ++ [TtsFetch req (optionVal o)];
                calls := calls w ++ [Suspend (TtsFetch req (optionVal o))] |}).
  assert (S1 : step w (OptionClick i) = Some w1)
    by (cbn [step]; rewrite Hi; reflexivity).
  assert (R : exists w2, run w1 es = Some w2).
  { clear S1. generalize w1. induction es as [|e es IH]; intros v.
    - now exists v.
    - cbn in Hl. apply andb_true_iff in Hl as [He Hl].
      destruct e; try discriminate He. cbn. apply IH, Hl. }
  destruct R as [w2 R].
  destruct (run_languageChange es w1 w2 Hl R) as (P & _ & S & St & H).
  cbn [app pending w1] in P, S, St, H.
  assert (Run : run w (OptionClick i
                         :: es ++ [TtsSettled (List.length (pending w))
                                              out voices])
                = step w2 (TtsSettled (List.length (pending w)) out voices)).
  { cbn [run]. rewrite S1, run_app, R. cbn [run].
    now destruct (step w2 _). }
  rewrite Run. cbn [step]. rewrite P, nth_error_snoc, remove_nth_snoc.
  destruct (speakText_resume req out voices) as [m|] eqn:Em;
    (eexists; split; [reflexivity|]);
    cbn [commit app pending fst snd suspended flat_map];
    rewrite ?app_nil_r;
    (do 3 (split; [assumption|])).
  - split; [|split].
    + intros Hc. rewrite (speakText_resume_local req out voices Hc) in Em.
      injection Em as <-. reflexivity.
    + intros fields a -> Hc Ha.
      rewrite (speakText_resume_network req fields a voices Hc Ha) in Em.
      injection Em as <-. reflexivity.
    + intros Hc. rewrite (speakText_resume_rejects req out voices Hc) in Em.
      discriminate Em.
  - split; [|split].
    + intros Hc. rewrite (speakText_resume_local req out voices Hc) in Em.
      discriminate Em.
    + intros fields a -> Hc Ha.
      rewrite (speakText_resume_network req fields a voices Hc Ha) in Em.
      discriminate Em.
    + reflexivity.
Qed.

Lemma speech_request_never_surfaces_failure_witness :
  let polite := {| tone := lit "polite"; response := lit "Sure." |} in
  let w := {| app := setResponseOptions (JArr [optionVal polite]) initialState;
              pending := []; calls := [] |} in
  let refused := FetchData (JObj [(lit "success", JBool false)]) in
  exists w' u,
    run w [OptionClick 0; LanguageChange (lit "ta-IN");
           TtsSettled 0 refused []] = Some w' /\
    pending w' = [Playback (LocalSpeech u) (optionVal polite)] /\
    utt_lang u = lit "en-IN" /\
    selectedLanguage (app w') = lit "ta-IN" /\
    status (app w') = {| message := lit "Ready"; color := lit "gray" |}.
Proof.
  intros polite w refused.
  destruct (speech_request_never_surfaces_failure w 0 polite
              [LanguageChange (lit "ta-IN")] refused [] eq_refl eq_refl)
    as (w' & R & St & _ & _ & L & _).
  specialize (L eq_refl).
  exists w', (fallbackSpeak (lit "en-US") [] (lit "Sure.")).
  split; [exact R|]. split; [exact L|]. split; [reflexivity|].
  split; [|exact St].
  vm_compute in R. injection R as <-. reflexivity.
Defined.

(* ================================================================== *)
(** ** An option without a response text *)
(* ================================================================== *)

(** X6.  [selectResponse] on an option that has no string [response] (the
    field is missing, or is not a string).  The
    click raises the speaking flag and clears the options, then
    [speakText] throws before any request is made: nothing is suspended
    and nothing is logged.  If nothing else was in flight, the session
    is stuck: whatever events follow, the speaking flag stays up (so every
    mic click is refused), nothing is ever suspended and the component
    never calls the browser again. *)
Theorem option_without_response_freezes_session
    (w : World) (i : nat) (o : JsVal) :
  nth_error (renderedOptions (app w)) i = Some o ->
  (forall t, get o (lit "response") <> Some (JStr t)) ->
  exists w1,
    step w (OptionClick i) = Some w1 /\
    isSpeaking (app w1) = true /\
    renderedOptions (app w1) = [] /\
    pending w1 = pending w /\
    calls w1 = calls w /\
    conversationHistory (app w1) = conversationHistory (app w) /\
    (pending w = [] ->
     forall es w',
       run w1 es = Some w' ->
       isSpeaking (app w') = true /\ pending w' = [] /\ calls w' = calls w).
Proof.
  intros Hi Hn.
  assert (E : selectResponse o (app w) =
              (setResponseOptions (JArr []) (setIsSpeaking true (app w)), [])).
  { unfold selectResponse, speakText.
    destruct (get o (lit "response")) as [[| | | |t| |]|] eqn:G;
      try reflexivity.
    now destruct (Hn t). }
  eexists. cbn [step]. rewrite Hi, E. split; [reflexivity|].
  rewrite commit_pure. cbn [app pending calls].
  do 5 (split; [reflexivity|]).
  intros Hp es.
  assert (G : forall v v',
             isSpeaking (app v) = true -> pending v = [] ->
             renderedOptions (app v) = [] ->
             run v es = Some v' ->
             isSpeaking (app v') = true /\ pending v' = [] /\
             calls v' = calls v).
  { induction es as [|e es IH]; intros v v' Hs Hpv Ho Hr; cbn in Hr.
    - injection Hr as <-. auto.
    - destruct (step v e) as [v1|] eqn:Es; [|discriminate].
      destruct (step_frozen v v1 e Hs Hpv Ho Es) as (A & B & C & D).
      destruct (IH v1 v' A B C Hr) as (A' & B' & C').
      rewrite <- D. auto. }
  intros w' Hr.
  eapply G in Hr; [exact Hr | reflexivity | exact Hp | reflexivity].
Qed.

Lemma option_without_response_freezes_session_witness :
  let toneOnly := JObj [(lit "tone", JStr (lit "polite"))] in
  let w := {| app := setResponseOptions (JArr [toneOnly]) initialState;
              pending := []; calls := [] |} in
  exists w',
    run w [OptionClick 0; MicClick true false;
           RecognitionOnError (lit "network"); MicClick true false]
    = Some w' /\
    isSpeaking (app w') = true /\ calls w' = [].
Proof.
  intros toneOnly w.
  destruct (option_without_response_freezes_session w 0 toneOnly eq_refl)
    as (w1 & S & _ & _ & _ & _ & _ & F).
  { intros t. discriminate. }
  assert (R : exists w',
             run w1 [MicClick true false; RecognitionOnError (lit "network");
                     MicClick true false] = Some w').
  { cbn in S. injection S as <-. eexists. vm_compute. reflexivity. }
  destruct R as [w' R]. exists w'.
  split; [cbn [run]; rewrite S; exact R|].
  destruct (F eq_refl _ _ R) as (A & _ & C). split; assumption.
Defined.

(* ================================================================== *)
(** ** The voice of the local fallback *)
(* ================================================================== *)

Lemma find_first {A : Type} (f : A -> bool) (l : list A) (x : A) :
  find f l = Some x ->
  exists before after,
    l = before ++ x :: after /\ f x = true /\
    forall y, In y before -> f y = false.
Proof.
  induction l as [|a l IH]; [discriminate|]. simpl.
  destruct (f a) eqn:Fa.
  - intros E; injection E as ->. exists [], l. repeat split; trivial.
    intros y [].
  - intros E. destruct (IH E) as (before & after & -> & Fx & Hb).
    exists (a :: before), after. repeat split; trivial.
    intros y [<-|Hy]; auto.
Qed.

(** X7.  [fallbackSpeak], choice of the voice.  The language prefix that a
    voice must match is "hi", "ta" or "en", the part of the utterance's
    locale before its hyphen.  When a voice is set, it is the first voice
    of the list, in the list's order, whose language tag starts with that
    prefix and whose name, lower-cased, contains "female" or "woman"; it
    is never a voice of another language.  No voice is set, which leaves
    the engine's default, exactly when no voice of the list qualifies (in
    particular when the list is empty, as before the voices are loaded). *)
Theorem fallback_voice_is_first_match
    (selected t : jsstring) (voices : list Voice) :
  let u := fallbackSpeak selected voices t in
  let prefix := Js.split_head 45 (utt_lang u) in
  (prefix = lit "hi" \/ prefix = lit "ta" \/ prefix = lit "en") /\
  (forall v,
      voice u = Some v ->
      exists before after,
        voices = before ++ v :: after /\
        Js.startsWith (voice_lang v) prefix = true /\
        (Js.includes (Js.toLowerCase (voice_name v)) (lit "female")
         || Js.includes (Js.toLowerCase (voice_name v)) (lit "woman")) = true /\
        forall x, In x before -> isFemaleVoice (utt_lang u) x = false) /\
  (voice u = None <->
   forall x, In x voices -> isFemaleVoice (utt_lang u) x = false).
Proof.
  cbn zeta. cbn [fallbackSpeak utt_lang voice]. split; [|split].
  - unfold fallbackLang. split_cases; auto.
  - intros v Hv. apply find_first in Hv as (before & after & E & Fv & Hb).
    exists before, after. unfold isFemaleVoice in Fv.
    apply andb_true_iff in Fv as [F1 F2]. auto.
  - split.
    + intros Hn x Hx. exact (find_none _ _ Hn x Hx).
    + intros Hall. destruct (find _ voices) as [v|] eqn:Ef; [|reflexivity].
      apply find_some in Ef as [Hin Hf]. rewrite (Hall v Hin) in Hf.
      discriminate.
Qed.

Lemma fallback_voice_is_first_match_witness :
  let voices :=
    [{| voice_lang := lit "en-GB"; voice_name := lit "Google UK English Female" |};
     {| voice_lang := lit "hi-IN"; voice_name := lit "Lekha" |};
     {| voice_lang := lit "hi-IN"; voice_name := lit "Hindi WOMAN 2" |};
     {| voice_lang := lit "hi-IN"; voice_name := lit "Hindi Female 3" |}] in
  (exists v,
      voice (fallbackSpeak (lit "raj-IN") voices (lit "Namaste")) = Some v /\
      voice_name v = lit "Hindi WOMAN 2" /\
      Js.startsWith (voice_lang v) (lit "hi") = true) /\
  voice (fallbackSpeak (lit "ta-IN") voices (lit "Vanakkam")) = None.
Proof.
  intros voices. split.
  - eexists. split; [reflexivity|]. split; [reflexivity|].
    destruct (proj1 (proj2 (fallback_voice_is_first_match
                              (lit "raj-IN") (lit "Namaste") voices))
                _ eq_refl)
      as (before & after & _ & H & _).
    exact H.
  - apply (fallback_voice_is_first_match (lit "ta-IN") (lit "Vanakkam") voices).
    intros x Hx. cbn in Hx.
    destruct Hx as [<-|[<-|[<-|[<-|[]]]]]; reflexivity.
Defined.

(* ================================================================== *)
(** ** Invariants of the reachable worlds *)
(* ================================================================== *)

Lemma run_invariant (P : World -> Prop) :
  (forall w e w', P w -> step w e = Some w' -> P w') ->
  forall es w w', P w -> run w es = Some w' -> P w'.
Proof.
  intros Hstep. induction es as [|e es IH]; intros w w' Hp Hr; cbn in Hr.
  - now injection Hr as <-.
  - destruct (step w e) as [w1|] eqn:Es; [|discriminate].
    eapply IH; [|exact Hr]. eapply Hstep; eassumption.
Qed.

Lemma reachable_invariant (P : World -> Prop) :
  P initialWorld ->
  (forall w e w', P w -> step w e = Some w' -> P w') ->
  forall w, reachable w -> P w.
Proof.
  intros H0 Hstep w [es Hr]. exact (run_invariant P Hstep es _ _ H0 Hr).
Qed.

(** Every step appends its calls to the log; a mic click appends those of
    [handleMicClick], and every other event keeps the recognition instance
    and only suspends. *)
Lemma step_calls (w w' : World) (e : Event) :
  step w e = Some w' ->
  (exists supported startThrows,
      e = MicClick supported startThrows /\
      app w' = fst (handleMicClick supported startThrows (app w)) /\
      calls w' = calls w ++ snd (handleMicClick supported startThrows (app w)))
  \/
  (recognitionRef (app w') = recognitionRef (app w) /\
   exists ts, calls w' = calls w ++ map Suspend ts /\
              (forall req start,
                  In (GenerateFetch req start) ts ->
                  exists history language now,
                    snd (stopRecording_timeout history language now (app w))
                    = [Suspend (GenerateFetch req start)])).
Proof.
  intros Hs. destruct e; cbn [step] in Hs.
  - left. injection Hs as <-. now exists supported, startThrows.
  - right. injection Hs as <-. rewrite commit_pure. split; [reflexivity|].
    exists []. cbn. rewrite app_nil_r. split; [reflexivity|]. intros ? ? [].
  - right. injection Hs as <-. rewrite commit_pure.
    split; [apply (onresult_frame e (app w))|].
    exists []. cbn. rewrite app_nil_r. split; [reflexivity|]. intros ? ? [].
  - right. injection Hs as <-. rewrite commit_pure.
    split; [apply (onerror_frame error (app w))|].
    exists []. cbn. rewrite app_nil_r. split; [reflexivity|]. intros ? ? [].
  - right. destruct (nth_error (pending w) i) as [[ms h l| | |]|];
      try discriminate Hs.
    injection Hs as <-. cbn [commit app calls].
    unfold stopRecording_timeout at 1 2, generateResponses.
    destruct (truthy _) eqn:Et; cbn [fst snd]; (split; [reflexivity|]).
    + eexists [_]. split; [reflexivity|].
      intros req start [E|[]]. exists h, l, now.
      unfold stopRecording_timeout, generateResponses. rewrite Et.
      cbn [snd]. now rewrite E.
    + exists []. split; [reflexivity|]. intros ? ? [].
  - right. destruct (nth_error (pending w) i) as [[|req start| |]|];
      try discriminate Hs.
    injection Hs as <-. cbn [commit app calls fst snd].
    split.
    + unfold generateResponses_resume, generateResponses_catch.
      split_cases; reflexivity.
    + exists []. split; [reflexivity|]. intros ? ? [].
  - right. destruct (nth_error (renderedOptions (app w)) i) as [o|];
      try discriminate Hs.
    injection Hs as <-. cbn [commit app calls].
    unfold selectResponse, speakText.
    destruct (get o (lit "response")) as [[| | | |t| |]|];
      cbn [fst snd]; (split; [reflexivity|]);
      try (exists []; split; [reflexivity|]; intros ? ? []).
    eexists [_]. split; [reflexivity|]. intros ? ? [E|[]]. discriminate E.
  - right. destruct (nth_error (pending w) i) as [[| |req o|]|];
      try discriminate Hs.
    destruct (speakText_resume req out voices); injection Hs as <-;
      cbn [commit app calls fst snd]; (split; [reflexivity|]).
    + eexists [_]. split; [reflexivity|]. intros ? ? [E|[]]. discriminate E.
    + exists []. split; [reflexivity|]. intros ? ? [].
  - right. destruct (nth_error (pending w) i) as [[| | |m o]|];
      try discriminate Hs.
    destruct (handlerOf m ev) as [[|]|]; injection Hs as <-;
      rewrite ?commit_pure; cbn [commit app calls fst snd].
    + split; [unfold selectResponse_resume; split_cases; reflexivity|].
      exists []. cbn. rewrite app_nil_r. split; [reflexivity|].
      intros ? ? [].
    + split; [reflexivity|]. exists []. cbn. rewrite app_nil_r.
      split; [reflexivity|]. intros ? ? [].
    + split; [reflexivity|]. exists []. cbn. rewrite app_nil_r.
      split; [reflexivity|]. intros ? ? [].
  - right. destruct (conversationHistory (app w)); [discriminate|].
    injection Hs as <-. rewrite commit_pure. split; [reflexivity|].
    exists []. cbn. rewrite app_nil_r. split; [reflexivity|]. intros ? ? [].
  - right. injection Hs as <-. rewrite commit_pure. split; [reflexivity|].
    exists []. cbn. rewrite app_nil_r. split; [reflexivity|]. intros ? ? [].
Qed.

(** What [handleMicClick] does to the recognition instance and which
    engine calls it makes. *)
Lemma handleMicClick_engine (supported startThrows : bool) (s : AppState) :
  (forall r, recognitionRef s = Some r -> configured r) ->
  let res := handleMicClick supported startThrows s in
  (forall r, recognitionRef (fst res) = Some r -> configured r) /\
  (forall c, In c (snd res) ->
             (exists r, (c = RecognitionStart r \/ c = RecognitionStop r) /\
                        recognitionRef (fst res) = Some r) \/
             (exists ms h l, c = Suspend (Timer ms h l))).
Proof.
  intros Hc.
  assert (N : forall l,
             configured {| continuous := true; interimResults := true;
                           lang := if Js.eqb l (lit "raj-IN")
                                   then lit "hi-IN" else l;
                           onstart_language := l |})
    by (intros l; repeat split).
  mic_paths s supported startThrows; split;
    try (intros r' Hr'; first [ apply Hc; congruence
                              | injection Hr' as <-; apply N
                              | discriminate Hr' ]);
    intros c Hin; cbn in Hin;
    repeat match goal with
           | H : _ \/ _ |- _ => destruct H as [<-|H]
           | H : False |- _ => destruct H
           end;
    first [ left; eexists; split;
            [left; reflexivity|first [reflexivity|eassumption]]
          | left; eexists; split;
            [right; reflexivity|first [reflexivity|eassumption]]
          | right; do 3 eexists; reflexivity ].
Qed.

Lemma configured_lang (r : Recognition) :
  configured r -> lang r <> lit "raj-IN".
Proof.
  intros (_ & _ & E). rewrite E.
  destruct (Js.eqb (onstart_language r) (lit "raj-IN")) eqn:H.
  - discriminate.
  - now apply JsFacts.eqb_neq.
Qed.

Lemma not_engine_call_in_suspensions (ts : list Task) (r : Recognition) :
  ~ (In (RecognitionStart r) (map Suspend ts)
     \/ In (RecognitionStop r) (map Suspend ts)).
Proof.
  intros [H|H]; apply in_map_iff in H as (t & E & _); discriminate E.
Qed.

(** X8.  [initializeRecognition] and its callers.  In every reachable
    world, the recognition instance held in the ref and every instance
    the component ever started or stopped is continuous, delivers interim
    results, and listens in hi-IN if it was built under raj-IN and in the
    language selected at the time otherwise; the engine is never asked to
    listen in raj-IN. *)
Theorem recognition_instances_configured (w : World) (r : Recognition) :
  reachable w ->
  recognitionRef (app w) = Some r
  \/ In (RecognitionStart r) (calls w)
  \/ In (RecognitionStop r) (calls w) ->
  configured r /\ lang r <> lit "raj-IN".
Proof.
  intros Hreach Hr.
  assert (I : (forall r, recognitionRef (app w) = Some r -> configured r) /\
              (forall r, In (RecognitionStart r) (calls w)
                         \/ In (RecognitionStop r) (calls w) ->
                         configured r)).
  { clear r Hr. revert w Hreach.
    apply reachable_invariant; [split; [discriminate|intros r [[]|[]]]|].
    intros w e w' [Iref Icalls] Hs.
    destruct (step_calls w w' e Hs)
      as [(sup & thr & _ & Ea & Ec)|(Eref & ts & Ec & _)].
    - destruct (handleMicClick_engine sup thr (app w) Iref) as [Nref Ncalls].
      cbn zeta in Nref, Ncalls. rewrite Ea, Ec. split; [exact Nref|].
      intros r Hin.
      assert (D : (In (RecognitionStart r) (calls w)
                   \/ In (RecognitionStop r) (calls w))
                  \/ exists c, In c (snd (handleMicClick sup thr (app w)))
                               /\ (c = RecognitionStart r
                                   \/ c = RecognitionStop r)).
      { destruct Hin as [H|H]; apply in_app_or in H as [H|H]; eauto 6. }
      destruct D as [D|(c & Hc & Ecr)]; [now apply Icalls|].
      destruct (Ncalls c Hc) as [(r' & Er' & Href)|(ms & h & l & Et)].
      + apply Nref. rewrite Href. f_equal.
        destruct Ecr as [->| ->], Er' as [E|E]; congruence.
      + destruct Ecr as [->| ->]; discriminate Et.
    - rewrite Eref, Ec. split; [exact Iref|].
      intros r Hin. apply Icalls.
      destruct Hin as [H|H]; apply in_app_or in H as [H|H]; auto;
        exfalso; apply (not_engine_call_in_suspensions ts r); auto. }
  destruct I as [Iref Icalls].
  assert (C : configured r)
    by (destruct Hr as [H|H]; [now apply Iref|now apply Icalls]).
  split; [exact C|now apply configured_lang].
Qed.

Lemma recognition_instances_configured_witness :
  exists w r,
    run initialWorld [LanguageChange (lit "raj-IN"); MicClick true false]
    = Some w /\
    calls w = [RecognitionStart r] /\
    lang r = lit "hi-IN" /\ onstart_language r = lit "raj-IN" /\
    configured r.
Proof.
  assert (R : exists w,
             run initialWorld
                 [LanguageChange (lit "raj-IN"); MicClick true false]
             = Some w) by (eexists; vm_compute; reflexivity).
  destruct R as [w R].
  exists w,
    {| continuous := true; interimResults := true;
       lang := lit "hi-IN"; onstart_language := lit "raj-IN" |}.
  split; [exact R|].
  assert (C : calls w =
              [RecognitionStart
                 {| continuous := true; interimResults := true;
                    lang := lit "hi-IN"; onstart_language := lit "raj-IN" |}])
    by (cbn in R; injection R as <-; reflexivity).
  split; [exact C|]. split; [reflexivity|]. split; [reflexivity|].
  apply (recognition_instances_configured w).
  - now exists [LanguageChange (lit "raj-IN"); MicClick true false].
  - right. left. rewrite C. now left.
Defined.

Lemma handleMicClick_status (supported startThrows : bool) (s : AppState) :
  statusShown (status s) ->
  statusShown (status (fst (handleMicClick supported startThrows s))).
Proof. intros H. mic_paths s supported startThrows; status_shown H. Qed.

Lemma generateResponses_resume_status
    (txt : jsstring) (start : Z) (out : FetchOutcome) (now : Z)
    (s : AppState) :
  statusShown (status (generateResponses_resume txt start out now s)).
Proof.
  unfold generateResponses_resume, generateResponses_catch.
  split_cases; cbn [status setStatus setIsProcessing setResponseOptions
                    addToConversation setConversationHistory];
    (split; [eexists; reflexivity | cbn; discriminate]).
Qed.

Lemma step_status (w w' : World) (e : Event) :
  statusShown (status (app w)) ->
  step w e = Some w' ->
  statusShown (status (app w')).
Proof.
  intros H Hs. destruct e; cbn [step] in Hs.
  - injection Hs as <-. now apply handleMicClick_status.
  - injection Hs as <-. split; [eexists; reflexivity | cbn; discriminate].
  - injection Hs as <-. cbn [commit app fst]. unfold onresult.
    destruct (onresult_loop _ _ _). exact H.
  - injection Hs as <-. cbn [commit app fst]. unfold onerror.
    destruct (negb _ && negb _); status_shown H.
  - destruct (nth_error (pending w) i) as [[ms h l| | |]|];
      try discriminate Hs.
    injection Hs as <-. cbn [commit app].
    unfold stopRecording_timeout, generateResponses.
    destruct (truthy _); status_shown H.
  - destruct (nth_error (pending w) i) as [[|req start| |]|];
      try discriminate Hs.
    injection Hs as <-. apply generateResponses_resume_status.
  - destruct (nth_error (renderedOptions (app w)) i) as [o|];
      try discriminate Hs.
    injection Hs as <-. cbn [commit app]. unfold selectResponse, speakText.
    split_cases; exact H.
  - destruct (nth_error (pending w) i) as [[| |req o|]|];
      try discriminate Hs.
    destruct (speakText_resume req out voices); injection Hs as <-;
      exact H.
  - destruct (nth_error (pending w) i) as [[| | |m o]|];
      try discriminate Hs.
    destruct (handlerOf m ev) as [[|]|]; injection Hs as <-;
      [|exact H|exact H].
    cbn [commit app fst]. unfold selectResponse_resume.
    split_cases; status_shown H.
  - destruct (conversationHistory (app w)); [discriminate|].
    injection Hs as <-. split; [eexists; reflexivity | cbn; discriminate].
  - injection Hs as <-. exact H.
Qed.

(** X9.  Every [setStatus] of the component against the render's
    [statusColors] table.  In every reachable world the status line has a
    non-empty message, and its colour is one of the five keys of the
    table, so that the class given to the status line is never
    [undefined]. *)
Theorem status_always_shown (w : World) :
  reachable w ->
  message (status (app w)) <> [] /\
  exists cls,
    statusColors (color (status (app w))) = JStr cls /\
    cls = lit "text-" ++ color (status (app w)) ++ lit "-600".
Proof.
  intros Hr.
  assert (H : statusShown (status (app w))).
  { revert w Hr. apply reachable_invariant.
    - split; [eexists; reflexivity|discriminate].
    - intros w e w' H Hs. exact (step_status w w' e H Hs). }
  destruct H as [[cls Hc] Hm]. split; [exact Hm|].
  exists cls. split; [exact Hc|].
  unfold statusColors in Hc. revert Hc.
  repeat match goal with
         | |- context [Js.eqb ?a ?b] =>
             let E := fresh "E" in
             destruct (Js.eqb a b) eqn:E;
             [apply JsFacts.eqb_eq in E; rewrite E;
              intros Hc; injection Hc as <-; reflexivity|]
         end.
  discriminate.
Qed.

Lemma status_always_shown_witness :
  exists w,
    run initialWorld [MicClick false false; RecognitionOnError (lit "network")]
    = Some w /\
    statusColors (color (status (app w))) = JStr (lit "text-red-600").
Proof.
  assert (R : exists w,
             run initialWorld
                 [MicClick false false; RecognitionOnError (lit "network")]
             = Some w) by (eexists; vm_compute; reflexivity).
  destruct R as [w R]. exists w. split; [exact R|].
  destruct (status_always_shown w) as (_ & cls & Hc & Ecls).
  - now exists [MicClick false false; RecognitionOnError (lit "network")].
  - rewrite Hc, Ecls. cbn in R. injection R as <-. reflexivity.
Defined.

(** [handleMicClick] never issues a generation request itself. *)
Lemma handleMicClick_no_request
    (supported startThrows : bool) (s : AppState)
    (req : GenerateRequest) (start : Z) :
  ~ In (Suspend (GenerateFetch req start))
       (snd (handleMicClick supported startThrows s)).
Proof.
  mic_paths s supported startThrows; intros H;
    repeat match goal with
           | H : _ \/ _ |- _ => destruct H as [H|H]
           | H : False |- _ => destruct H
           | H : _ = Suspend _ |- _ => discriminate H
           end.
Qed.

Lemma stopRecording_timeout_sendable
    (h : list ConversationEntry) (l : jsstring) (now : Z) (s : AppState)
    (req : GenerateRequest) (start : Z) :
  snd (stopRecording_timeout h l now s) = [Suspend (GenerateFetch req start)] ->
  sendable (patronText req).
Proof.
  unfold stopRecording_timeout, generateResponses.
  destruct (truthy _) eqn:Et; [|discriminate].
  cbn [snd]. intros E. injection E as <- _. cbn [patronText].
  split; [|apply trim_noSurroundingSpace].
  intros E. rewrite E in Et. discriminate Et.
Qed.

(** X10.  What is sent to the generation service.  In every reachable
    world, every generation request the component has ever issued carries
    a text that is not empty and has no white space at either end: an
    empty or blank recording never reaches the service. *)
Theorem requests_carry_sendable_text
    (w : World) (req : GenerateRequest) (start : Z) :
  reachable w ->
  In (Suspend (GenerateFetch req start)) (calls w) ->
  sendable (patronText req).
Proof.
  intros Hr. revert req start. revert w Hr.
  apply (reachable_invariant
           (fun w => forall req start,
                In (Suspend (GenerateFetch req start)) (calls w) ->
                sendable (patronText req))).
  - intros req start [].
  - intros w e w' IH Hs req start Hin.
    destruct (step_calls w w' e Hs)
      as [(sup & thr & _ & _ & Ec)|(_ & ts & Ec & Hts)];
      rewrite Ec in Hin; apply in_app_or in Hin as [Hin|Hin];
      try (now apply (IH req start)).
    + now destruct (handleMicClick_no_request sup thr (app w) req start).
    + apply in_map_iff in Hin as (t & Et & Hin). injection Et as ->.
      destruct (Hts req start Hin) as (h & l & now & E).
      exact (stopRecording_timeout_sendable h l now (app w) req start E).
Qed.

Lemma requests_carry_sendable_text_witness :
  let r := {| continuous := true; interimResults := true;
              lang := lit "en-US"; onstart_language := lit "en-US" |} in
  let es := [MicClick true false; RecognitionOnStart r;
             RecognitionOnResult
               {| resultIndex := 0;
                  results := [{| res_transcript := lit "  More tea please ";
                                 isFinal := true |}] |};
             MicClick true false; TimerFired 0 1000] in
  exists w req,
    run initialWorld es = Some w /\
    In (Suspend (GenerateFetch req 1000)) (calls w) /\
    patronText req = lit "More tea please" /\
    sendable (patronText req).
Proof.
  intros r es.
  assert (R : exists w, run initialWorld es = Some w)
    by (eexists; vm_compute; reflexivity).
  destruct R as [w R].
  exists w, {| patronText := lit "More tea please"; req_history := [];
               req_language := lit "en-US" |}.
  assert (I : In (Suspend (GenerateFetch
                             {| patronText := lit "More tea please";
                                req_history := [];
                                req_language := lit "en-US" |} 1000))
                 (calls w)).
  { vm_compute in R. injection R as <-. do 3 right. left. reflexivity. }
  split; [exact R|]. split; [exact I|]. split; [reflexivity|].
  apply (requests_carry_sendable_text w _ 1000); [now exists es|exact I].
Defined.

(* ================================================================== *)
(** ** Starting that fails, and stopping what was started *)
(* ================================================================== *)

(** X11.  [startRecording], failure paths, for a click made while neither
    speaking nor recording.  Without a recognition constructor and without
    an instance, the click only puts the browser warning in the status (in
    red): transcript, options and everything else are untouched and
    nothing is called.  When [recognition.start()] throws, the status
    becomes "Click again" (orange) and no engine call is recorded, but the
    transcript and the options have been cleared all the same, and the
    recording flag stays down. *)
Theorem start_recording_failure_paths
    (w : World) (supported startThrows : bool) :
  isSpeaking (app w) = false ->
  isRecording (app w) = false ->
  (recognitionRef (app w) = None -> supported = false ->
   step w (MicClick supported startThrows) =
   Some {| app := setStatus ([9888; 65039]%N ++ lit " Use Chrome/Edge/Safari")
                            (lit "red") (app w);
           pending := pending w; calls := calls w |}) /\
  (recognitionRef (app w) <> None \/ supported = true ->
   startThrows = true ->
   exists w',
     step w (MicClick supported startThrows) = Some w' /\
     status (app w') =
       {| message := lit "Click again"; color := lit "orange" |} /\
     transcript (app w') = [] /\
     responseOptions (app w') = JArr [] /\
     isRecording (app w') = false /\
     calls w' = calls w /\
     pending w' = pending w).
Proof.
  intros Hs Hr. split.
  - intros Hn ->. apply step_pure. cbn [step].
    unfold handleMicClick, startRecording, initializeRecognition.
    rewrite Hs, Hr, Hn. reflexivity.
  - intros Hi ->. eexists. cbn [step]. split; [reflexivity|].
    unfold handleMicClick. rewrite Hs, Hr.
    unfold startRecording, initializeRecognition.
    destruct (recognitionRef (app w)) eqn:E; destruct supported;
      try (destruct Hi as [Hi|Hi]; congruence);
      cbn; rewrite ?E; cbn; rewrite ?app_nil_r; repeat split; exact Hr.
Qed.

Lemma start_recording_failure_paths_witness :
  let shown := setTranscript (lit "More tea please") initialState in
  let w := {| app := shown; pending := []; calls := [] |} in
  (exists w',
      step w (MicClick false false) = Some w' /\
      transcript (app w') = lit "More tea please" /\ calls w' = []) /\
  (exists w',
      step w (MicClick true true) = Some w' /\
      transcript (app w') = [] /\ calls w' = [] /\
      status (app w') =
        {| message := lit "Click again"; color := lit "orange" |}).
Proof.
  intros shown w.
  destruct (start_recording_failure_paths w false false eq_refl eq_refl)
    as [A _].
  destruct (start_recording_failure_paths w true true eq_refl eq_refl)
    as [_ B].
  split.
  - eexists. split; [exact (A eq_refl eq_refl)|]. split; reflexivity.
  - destruct (B (or_intror eq_refl) eq_refl)
      as (w' & S & St & T & _ & _ & C & _).
    exists w'. repeat split; assumption.
Defined.

(** X12.  [handleMicClick] as a toggle.  A click starts a recording, the
    engine reports its start, a second click stops: the instance stopped
    is the instance started by the first click, whatever results, errors,
    log clearings or language changes arrive in between (a language chosen
    meanwhile is used from the next start only).  The second click records
    the stop and the 500 ms timer after it and lowers the recording
    flag. *)
Theorem stop_reaches_started_instance
    (w w' : World) (r0 : Recognition) (supported startThrows : bool)
    (es1 es2 : list Event) :
  isSpeaking (app w) = false ->
  isRecording (app w) = false ->
  forallb quietEvent es1 = true ->
  forallb quietEvent es2 = true ->
  run w (MicClick true false
           :: es1 ++ RecognitionOnStart r0
           :: es2 ++ [MicClick supported startThrows]) = Some w' ->
  exists r history language,
    calls w' =
      calls w ++ [RecognitionStart r; RecognitionStop r;
                  Suspend (Timer 500 history language)] /\
    lang r = (if Js.eqb (selectedLanguage (app w)) (lit "raj-IN")
              then lit "hi-IN" else selectedLanguage (app w)) /\
    language = selectedLanguage (app w') /\
    history = conversationHistory (app w') /\
    isRecording (app w') = false /\
    pending w' = pending w ++ [Timer 500 history language].
Proof.
  intros Hs Hr Hq1 Hq2 Hrun.
  set (r := {| continuous := true; interimResults := true;
               lang := if Js.eqb (selectedLanguage (app w)) (lit "raj-IN")
                       then lit "hi-IN" else selectedLanguage (app w);
               onstart_language := selectedLanguage (app w) |}).
  assert (S1 : exists s1,
             step w (MicClick true false) =
             Some {| app := s1; pending := pending w;
                     calls := calls w ++ [RecognitionStart r] |} /\
             recognitionRef s1 = Some r /\ isSpeaking s1 = false).
  { destruct (recognitionRef (app w)) eqn:E;
      (eexists; cbn [step]; unfold handleMicClick; rewrite Hs, Hr;
       unfold startRecording, initializeRecognition; rewrite E;
       unfold commit; cbn; rewrite app_nil_r;
       split; [reflexivity|split; [reflexivity|exact Hs]]). }
  destruct S1 as (s1 & S1 & Ref1 & Sp1).
  cbn [run] in Hrun. rewrite S1, run_app in Hrun.
  destruct (run _ es1) as [w2|] eqn:R1; [|discriminate].
  destruct (run_quiet es1 _ _ Hq1 R1) as (P2 & C2 & _ & Sp2 & _ & _ & Ref2 & _).
  cbn [app pending calls] in P2, C2, Sp2, Ref2.
  cbn [run step] in Hrun. rewrite commit_pure, run_app in Hrun.
  destruct (run _ es2) as [w3|] eqn:R2; [|discriminate].
  destruct (run_quiet es2 _ _ Hq2 R2) as (P3 & C3 & Rec3 & Sp3 & _ & _ & Ref3 & _).
  cbn [app pending calls onstart isRecording isSpeaking recognitionRef
       setStatus setFinalTranscriptRef setTranscript setIsRecording]
    in P3, C3, Rec3, Sp3, Ref3.
  cbn [run step] in Hrun. injection Hrun as <-.
  unfold handleMicClick, stopRecording.
  rewrite Sp3, Sp2, Sp1, Rec3, Ref3, Ref2, Ref1.
  exists r, (conversationHistory (app w3)), (selectedLanguage (app w3)).
  cbn [commit app pending calls fst snd suspended flat_map negb].
  rewrite C3, C2, P3, P2, <- app_assoc. repeat split.
Qed.

Lemma stop_reaches_started_instance_witness :
  let r := {| continuous := true; interimResults := true;
              lang := lit "en-US"; onstart_language := lit "en-US" |} in
  exists w',
    run initialWorld
        [MicClick true false; LanguageChange (lit "ta-IN");
         RecognitionOnStart r; RecognitionOnError (lit "network");
         MicClick true false] = Some w' /\
    calls w' = [RecognitionStart r; RecognitionStop r;
                Suspend (Timer 500 [] (lit "ta-IN"))].
Proof.
  intros r.
  assert (R : exists w',
             run initialWorld
                 [MicClick true false; LanguageChange (lit "ta-IN");
                  RecognitionOnStart r; RecognitionOnError (lit "network");
                  MicClick true false] = Some w')
    by (eexists; vm_compute; reflexivity).
  destruct R as [w' R]. exists w'. split; [exact R|].
  destruct (stop_reaches_started_instance initialWorld w' r true false
              [LanguageChange (lit "ta-IN")]
              [RecognitionOnError (lit "network")]
              eq_refl eq_refl eq_refl eq_refl R)
    as (r' & h & l & C & L & El & Eh & _).
  vm_compute in R. injection R as <-.
  rewrite C. vm_compute in C. injection C as <- _ <- <-. reflexivity.
Defined.

(* ================================================================== *)
(** ** From the reply to the spoken answer *)
(* ================================================================== *)

(** X13.  [generateResponses], [selectResponse], [speakText] and
    [addToConversation] in sequence.  A generation request settles with
    success and a list of options that can all be shown, one of its
    well-formed options is clicked, and the speech request settles.  If
    the audio it may carry converts to a string, then whichever event the
    medium fires, the log has grown by exactly two entries, the patron's
    turn with the text that was sent and then the persona's turn "Pooja
    (<tone>)" with the chosen response, in that order; no option is on
    display, the processing and speaking flags are down, and what was
    suspended besides the request still is.  A session that was Processing
    is Idle.  If the audio does not convert, nothing is played, so that no
    medium can fire: the log has grown by the patron's turn alone, and the
    speaking flag stays up with nothing suspended for the exchange. *)
Theorem exchange_appends_two_turns
    (w : World) (i j : nat) (req : GenerateRequest) (start now : Z)
    (fields : list (jsstring * JsVal)) (l : list JsVal)
    (o : ResponseOption) (out : FetchOutcome) (voices : list Voice)
    (ev : MediaEvent) :
  nth_error (pending w) i = Some (GenerateFetch req start) ->
  truthy (lookup (lit "success") fields) = true ->
  lookup (lit "options") fields = JArr l ->
  forallb optionShown l = true ->
  nth_error l j = Some (optionVal o) ->
  let k := List.length (remove_nth i (pending w)) in
  (audioConverts out = true ->
   exists w',
     run w [GenerateSettled i (FetchData (JObj fields)) now;
            OptionClick j; TtsSettled k out voices; MediaFired k ev]
     = Some w' /\
     conversationHistory (app w') =
       conversationHistory (app w) ++
       [{| role := lit "Patron"; text := patronText req |};
        {| role := lit "Pooja (" ++ tone o ++ lit ")";
           text := response o |}] /\
     renderedOptions (app w') = [] /\
     isProcessing (app w') = false /\
     isSpeaking (app w') = false /\
     pending w' = remove_nth i (pending w) /\
     (sessionState (app w) = Some Processing ->
      sessionState (app w') = Some Idle)) /\
  (audioConverts out = false ->
   run w [GenerateSettled i (FetchData (JObj fields)) now;
          OptionClick j; TtsSettled k out voices; MediaFired k ev] = None /\
   exists w',
     run w [GenerateSettled i (FetchData (JObj fields)) now;
            OptionClick j; TtsSettled k out voices] = Some w' /\
     conversationHistory (app w') =
       conversationHistory (app w) ++
       [{| role := lit "Patron"; text := patronText req |}] /\
     renderedOptions (app w') = [] /\
     isSpeaking (app w') = true /\
     pending w' = remove_nth i (pending w)).
Proof.
  intros Hi Hs Ho Hshown Hj k.
  destruct (generateResponses_resume_success (patronText req) start fields
              now (app w) Hs) as (AO & AH & AP & _ & AR & _).
  cbn zeta in AO, AH, AP, AR. rewrite Ho in AO.
  set (A := generateResponses_resume (patronText req) start
              (FetchData (JObj fields)) now (app w)) in *.
  set (w1 := {| app := A; pending := remove_nth i (pending w);
                calls := calls w |}).
  assert (S1 : step w (GenerateSettled i (FetchData (JObj fields)) now)
               = Some w1).
  { cbn [step]. rewrite Hi. unfold commit. cbn [fst snd suspended flat_map].
    now rewrite !app_nil_r. }
  clearbody A.
  assert (Hopt : nth_error (renderedOptions (app w1)) j = Some (optionVal o)).
  { cbn [app w1]. unfold renderedOptions.
    now rewrite (render_shown A l AO Hshown). }
  split; intros Hc.
  - destruct (speakText_resume_converts
                {| tts_text := response o;
                   tts_language := selectedLanguage (app w1) |}
                out voices Hc) as [m Hm].
    destruct (select_pipeline w1 j o out voices m ev Hopt Hm)
      as (S2 & S3 & S4).
    cbn zeta in S2, S3, S4. cbn [pending w1] in S2, S3, S4.
    fold k in S3, S4.
    eexists. split.
    { cbn [run]. rewrite S1, S2, S3, S4. reflexivity. }
    cbn [app pending w1].
    split; [cbn; now rewrite AH, <- app_assoc|].
    split; [reflexivity|]. split; [cbn; exact AP|].
    split; [reflexivity|]. split; [reflexivity|].
    intros Hst. apply sessionState_flags in Hst as (Hrec & _ & _ & _).
    apply sessionState_idle; cbn; congruence.
  - set (q := {| tts_text := response o;
                 tts_language := selectedLanguage (app w1) |}).
    pose proof (speakText_resume_rejects q out voices Hc) as Hm.
    assert (S2 : step w1 (OptionClick j) =
                 Some {| app := setResponseOptions (JArr [])
                                  (setIsSpeaking true A);
                         pending := remove_nth i (pending w)
                                      ++ [TtsFetch q (optionVal o)];
                         calls := calls w
                                    ++ [Suspend (TtsFetch q (optionVal o))] |})
      by (cbn [step]; rewrite Hopt; reflexivity).
    assert (S3 : step {| app := setResponseOptions (JArr [])
                                  (setIsSpeaking true A);
                         pending := remove_nth i (pending w)
                                      ++ [TtsFetch q (optionVal o)];
                         calls := calls w
                                    ++ [Suspend (TtsFetch q (optionVal o))] |}
                      (TtsSettled k out voices) =
                 Some {| app := setResponseOptions (JArr [])
                                  (setIsSpeaking true A);
                         pending := remove_nth i (pending w);
                         calls := calls w
                                    ++ [Suspend (TtsFetch q (optionVal o))] |}).
    { cbn [step pending app]. subst k.
      rewrite nth_error_snoc, remove_nth_snoc, Hm.
      unfold commit. cbn [fst snd suspended flat_map calls].
      now rewrite !app_nil_r. }
    split.
    + cbn [run]. rewrite S1, S2, S3. cbn [step pending]. subst k.
      now rewrite (proj2 (nth_error_None _ _) (Nat.le_refl _)).
    + eexists. split; [cbn [run]; rewrite S1, S2, S3; reflexivity|].
      cbn [app pending]. split; [cbn; exact AH|]. repeat split.
Qed.

Lemma exchange_appends_two_turns_witness :
  let w0 := commit initialWorld []
              (generateResponses [] (lit "en-US") (lit "More tea please")
                 1000 initialState) in
  let polite := {| tone := lit "polite"; response := lit "Right away." |} in
  let fields := [(lit "success", JBool true);
                 (lit "options",
                  JArr [JObj [(lit "tone", JStr (lit "curt"))];
                        optionVal polite])] in
  exists w',
    run w0 [GenerateSettled 0 (FetchData (JObj fields)) 1500; OptionClick 1;
            TtsSettled 0 FetchThrows []; MediaFired 0 Errored] = Some w' /\
    conversationHistory (app w') =
      [{| role := lit "Patron"; text := lit "More tea please" |};
       {| role := lit "Pooja (polite)"; text := lit "Right away." |}] /\
    sessionState (app w') = Some Idle.
Proof.
  intros w0 polite fields.
  destruct (exchange_appends_two_turns w0 0 1
              {| patronText := lit "More tea please"; req_history := [];
                 req_language := lit "en-US" |} 1000 1500 fields
              [JObj [(lit "tone", JStr (lit "curt"))]; optionVal polite]
              polite FetchThrows [] Errored
              eq_refl eq_refl eq_refl eq_refl eq_refl)
    as [Hc _].
  destruct (Hc eq_refl) as (w' & R & H & _ & _ & _ & _ & I).
  exists w'. split; [exact R|]. split; [exact H|]. apply I. reflexivity.
Defined.

(** X14.  [selectResponse] clears the options at once.  After a click on
    an option, and until a generation request settles, no option is on
    display, so that no option can be clicked a second time, whatever
    else happens (clicks on the mic, recognition events, timers, the
    settlement of the speech request, the end of the playback). *)
Theorem option_cannot_be_clicked_twice
    (w w1 w2 : World) (i : nat) (es : list Event) :
  step w (OptionClick i) = Some w1 ->
  forallb notGenerateSettled es = true ->
  run w1 es = Some w2 ->
  renderedOptions (app w2) = [] /\
  forall j, step w2 (OptionClick j) = None.
Proof.
  intros S1 Hn Hr. cbn [step] in S1.
  destruct (nth_error (renderedOptions (app w)) i) as [o|]; [|discriminate].
  injection S1 as <-.
  destruct (run_keeps_request es _ _ Hn Hr) as (_ & O & _).
  cbn [commit app] in O.
  destruct (selectResponse_frame o (app w)) as [_ E]. cbn zeta in E.
  specialize (O E).
  assert (R : renderedOptions (app w2) = [])
    by (now apply renderedOptions_empty).
  split; [exact R|]. intros j. cbn [step]. rewrite R. now destruct j.
Qed.

Lemma option_cannot_be_clicked_twice_witness :
  let polite := {| tone := lit "polite"; response := lit "Right away." |} in
  let w := {| app := setResponseOptions (JArr [optionVal polite]) initialState;
              pending := []; calls := [] |} in
  run w [OptionClick 0; MicClick true false; TtsSettled 0 FetchThrows [];
         OptionClick 0] = None.
Proof.
  intros polite w.
  assert (R : exists w1 w2,
             step w (OptionClick 0) = Some w1 /\
             run w1 [MicClick true false; TtsSettled 0 FetchThrows []]
             = Some w2)
    by (do 2 eexists; split; vm_compute; reflexivity).
  destruct R as (w1 & w2 & S1 & R2).
  destruct (option_cannot_be_clicked_twice w w1 w2 0
              [MicClick true false; TtsSettled 0 FetchThrows []]
              S1 eq_refl R2) as [_ N].
  change (run w [OptionClick 0; MicClick true false;
                 TtsSettled 0 FetchThrows []; OptionClick 0])
    with (match step w (OptionClick 0) with
          | Some v => run v ([MicClick true false; TtsSettled 0 FetchThrows []]
                               ++ [OptionClick 0])
          | None => None
          end).
  rewrite S1, run_app, R2. cbn [run]. now rewrite N.
Defined.
